(** * bts_tools: the node-aware RPC gateway and the seed-node prober

    A shallow embedding of [src/bts_tools/views.py]: the node registry
    ([find_node], [find_local_node], [set_rpchost]), the JSON-RPC gateway
    ([json_rpc_call]) and the seed prober ([check_seed_status],
    [view_seed_nodes], [split_columns]).

    Python values are modelled as far as the views use them: parsed JSON
    with dictionaries kept in insertion order, exceptions with their class and
    the [except] clauses' subclass test, the socket calls and the two RPC
    entry points of [rpcutils] as oracles of the environment, threads by the
    instants at which each one stores its status and terminates, the view
    by the instants at which it joins them and looks the statuses up. *)

From stdpp Require Import base option list strings gmap pretty sorting.
From Stdlib Require Import ZArith NArith Ascii Lia.

Set Warnings "-register-all,-clear-no-such-hyp".
Local Open Scope string_scope.

(** ** Python values and exceptions *)

Module Py.

(** The exception classes the views raise, catch or let through. *)
Inductive exn_class :=
| Exception
| LookupError | KeyError | IndexError
| TypeError | AttributeError | OverflowError
| ValueError
| OSError | ConnectionError | ConnectionRefusedError | ConnectionResetError
| SocketTimeout            (* socket.timeout *)
| GaiError                 (* socket.gaierror *)
| RequestsConnectionError  (* requests.exceptions.ConnectionError *)
| RPCError                 (* core.RPCError *)
| UnauthorizedError.       (* core.UnauthorizedError *)

#[global] Instance exn_class_eq_dec : EqDecision exn_class.
Proof. solve_decision. Defined.

(** The direct base class ([None] for [Exception] itself).  [core.RPCError]
    and [core.UnauthorizedError] derive from [Exception]: [catch_error]
    handles them in clauses of their own, before [Exception]. *)
Definition base_class (c : exn_class) : option exn_class :=
  match c with
  | Exception => None
  | KeyError | IndexError => Some LookupError
  | ConnectionError | SocketTimeout | GaiError | RequestsConnectionError => Some OSError
  | ConnectionRefusedError | ConnectionResetError => Some ConnectionError
  | _ => Some Exception
  end.

(** [issubclass c d], by walking up at most the depth of the hierarchy. *)
Fixpoint subclass_fuel (n : nat) (c d : exn_class) : bool :=
  if decide (c = d) then true
  else match n with
       | O => false
       | S n' => match base_class c with
                 | Some b => subclass_fuel n' b d
                 | None => false
                 end
       end.

Definition issubclass : exn_class → exn_class → bool := subclass_fuel 3.

(** A raised exception: its class and [str(e)]. *)
Record exn := Exn { exn_cls : exn_class; exn_msg : string }.

#[global] Instance exn_eq_dec : EqDecision exn.
Proof. solve_decision. Defined.

(** [except C:] catches [e] when [isinstance(e, C)]. *)
Definition caught_by (e : exn) (c : exn_class) : bool := issubclass (exn_cls e) c.

(** The result of evaluating a Python expression or call. *)
Inductive outcome (A : Type) :=
| Return (a : A)
| Raise (e : exn).
Arguments Return {A} a.
Arguments Raise {A} e.

(** Sequencing: the first exception raised ends the evaluation. *)
#[global] Instance outcome_ret : MRet outcome := λ A a, Return a.
#[global] Instance outcome_bind : MBind outcome := λ A B k m,
  match m with
  | Return a => k a
  | Raise e => Raise e
  end.

(** What [json.loads] yields.  Numbers are the integers (floats are left
    out); a dictionary keeps its items in insertion order, as a Python
    [dict] does. *)
Inductive json :=
| JNull
| JBool (b : bool)
| JNum (z : Z)
| JStr (s : string)
| JList (l : list json)
| JDict (d : list (string * json)).

Abbreviation pydict := (list (string * json)).

(** [d.get(k)] *)
Fixpoint dict_get (k : string) (d : pydict) : option json :=
  match d with
  | [] => None
  | (k', v) :: d' => if decide (k' = k) then Some v else dict_get k d'
  end.

(** [d[k]] *)
Definition dict_getitem (k : string) (d : pydict) : outcome json :=
  match dict_get k d with
  | Some v => Return v
  | None => Raise (Exn KeyError k)
  end.

(** The dictionary after [del d[k]] (no effect when [k] is absent). *)
Definition dict_del (k : string) (d : pydict) : pydict :=
  filter (λ kv, kv.1 ≠ k) d.

(** [d.pop(k, default)]: the value and the dictionary that is left. *)
Definition dict_pop (k : string) (dflt : json) (d : pydict) : json * pydict :=
  (default dflt (dict_get k d), dict_del k d).

(** [d[k] = v]: an existing key keeps its place, a new one goes last. *)
Fixpoint dict_set (k : string) (v : json) (d : pydict) : pydict :=
  match d with
  | [] => [(k, v)]
  | (k', v') :: d' =>
      if decide (k' = k) then (k, v) :: d' else (k', v') :: dict_set k v d'
  end.

(** The one-character strings of a string, in order. *)
Fixpoint chars (s : string) : list string :=
  match s with
  | EmptyString => []
  | String a s' => String a EmptyString :: chars s'
  end.

(** [v[k]] for a string key. *)
Definition getitem_str (v : json) (k : string) : outcome json :=
  match v with
  | JDict d => dict_getitem k d
  | JList _ => Raise (Exn TypeError "list indices must be integers or slices, not str")
  | JStr _ => Raise (Exn TypeError "string indices must be integers")
  | _ => Raise (Exn TypeError "object is not subscriptable")
  end.

(** [v[i]] for a literal index [i >= 0]. *)
Definition getitem_idx (v : json) (i : nat) : outcome json :=
  match v with
  | JList l =>
      match l !! i with
      | Some x => Return x
      | None => Raise (Exn IndexError "list index out of range")
      end
  | JStr s =>
      match chars s !! i with
      | Some c => Return (JStr c)
      | None => Raise (Exn IndexError "string index out of range")
      end
  | JDict _ => Raise (Exn KeyError (pretty i))
  | _ => Raise (Exn TypeError "object is not subscriptable")
  end.

(** The positional arguments [*v] expands to. *)
Definition unpack (v : json) : outcome (list json) :=
  match v with
  | JList l => Return l
  | JStr s => Return (JStr <$> chars s)
  | JDict d => Return ((λ kv, JStr kv.1) <$> d)
  | _ => Raise (Exn TypeError "argument after * must be an iterable")
  end.

(** [x == v] for an [int] [x]: [True] and [False] are the integers 1 and 0. *)
Definition int_eq (x : Z) (v : json) : bool :=
  match v with
  | JNum z => bool_decide (x = z)
  | JBool b => bool_decide (x = if b then 1%Z else 0%Z)
  | _ => false
  end.

(** ['{}'.format(v)].  [repr_container] stands for Python's [repr] of a list
    or a dictionary, which the views never inspect. *)
Definition format (repr_container : json → string) (v : json) : string :=
  match v with
  | JNull => "None"
  | JBool true => "True"
  | JBool false => "False"
  | JNum z => pretty z
  | JStr s => s
  | _ => repr_container v
  end.

End Py.

Import Py.

(** ** The node registry: [rpc.nodes] and [rpc.main_node] *)

Module Registry.

(** What the views read of a client node.  [bts_type] and [is_localhost] are
    the values its methods of the same name return. *)
Record Node := {
  bts_type : string;
  rpc_host : string;
  rpc_port : Z;
  name : string;
  rpc_user : string;
  rpc_password : string;
  is_localhost : bool
}.

#[global] Instance Node_eq_dec : EqDecision Node.
Proof. solve_decision. Defined.

(** ['{}:{}'.format(node.rpc_host, node.rpc_port)] *)
Definition host_port (node : Node) : string :=
  rpc_host node ++ ":" ++ pretty (rpc_port node).

(** The test of the loop in [find_node]. *)
Definition node_matches (type host nm : string) (node : Node) : bool :=
  bool_decide (bts_type node = type)
  && bool_decide (host_port node = host)
  && bool_decide (name node = nm).

Fixpoint find_node (nodes : list Node) (type host nm : string) : outcome Node :=
  match nodes with
  | [] => Raise (Exn ValueError ("Node not found: " ++ type ++ "/" ++ host ++ "/" ++ nm))
  | node :: rest =>
      if node_matches type host nm node then Return node
      else find_node rest type host nm
  end.

(** The test of the loop in [find_local_node]. *)
Definition local_node_matches (port : json) (node : Node) : bool :=
  is_localhost node && int_eq (rpc_port node) port.

Fixpoint find_local_node (repr : json → string) (nodes : list Node) (port : json)
  : outcome Node :=
  match nodes with
  | [] => Raise (Exn ValueError ("Node not found: localhost:" ++ format repr port))
  | node :: rest =>
      if local_node_matches port node then Return node
      else find_local_node repr rest port
  end.

(** The module-level state of [rpcutils] and [core] the views touch.  The
    views never modify a node, so [rpc.main_node], a reference to one of the
    registered nodes, is kept as that node. *)
Record state := {
  nodes : list Node;
  main_node : option Node;
  is_online : bool
}.

Inductive response :=
| Redirect (url : string)
| Json (body : json)
| OfflinePage
| UnauthorizedPage
| ServerErrorPage.

(** [needle in hay] *)
Fixpoint contains (needle hay : string) : bool :=
  String.prefix needle hay
  || match hay with
     | EmptyString => false
     | String _ hay' => contains needle hay'
     end.

(** The decorator [catch_error], applied to the outcome of the view. *)
Definition catch_error (r : state * outcome response) : state * response :=
  let '(st, o) := r in
  let offline := {| nodes := nodes st; main_node := main_node st; is_online := false |} in
  match o with
  | Return resp => (st, resp)
  | Raise e =>
      if caught_by e RequestsConnectionError then (offline, OfflinePage)
      else if caught_by e RPCError then
        if contains "Connection aborted" (exn_msg e) then (offline, OfflinePage)
        else (st, ServerErrorPage)
      else if caught_by e UnauthorizedError then (st, UnauthorizedPage)
      else (st, ServerErrorPage)
  end.

(** The body of [set_rpchost]. *)
Definition set_rpchost_body (st : state) (type host nm url : string)
  : state * outcome response :=
  let '(st', tried) :=
    match find_node (nodes st) type host nm with
    | Return node =>
        ({| nodes := nodes st; main_node := Some node; is_online := is_online st |},
         Return ())
    | Raise e =>
        if caught_by e ValueError then (st, Return ()) else (st, Raise e)
    end in
  (st', _ ← tried; Return (Redirect url)).

Definition set_rpchost (st : state) (type host nm url : string) : state * response :=
  catch_error (set_rpchost_body st type host nm url).

End Registry.

Import Registry.

(** ** The gateway: [json_rpc_call] *)

Module Gateway.

(** The callees of [json_rpc_call] that live outside [views.py]. *)
Record env := {
  (** [getattr(node, method)]: the bound method, a function of the unpacked
      arguments, or the exception raised when the node has none *)
  node_method : Node → string → outcome (list json → outcome json);
  (** [rpc.rpc_call host port user password method] on the unpacked arguments,
      with [__graphene=True] and [raw_response=True] *)
  rpc_call : string → json → string → string → json → list json → outcome json;
  (** [repr] of lists and dictionaries *)
  repr_container : json → string
}.

(** What the gateway calls, in order. *)
Inductive call :=
| NodeCall (node : Node) (method : string) (args : list json)
| RpcCall (host : string) (port : json) (user password : string)
          (method : json) (args : list json).

Definition intercepted_methods : list string :=
  ["is_signing_key_active"; "network_get_info"; "network_get_connected_peers";
   "network_get_potential_peers"; "network_get_advanced_parameters";
   "network_set_advanced_parameters"].

(** [method in [...]]: the name when [method] is one of the six strings. *)
Definition intercepted (method : json) : option string :=
  match method with
  | JStr m => if bool_decide (m ∈ intercepted_methods) then Some m else None
  | _ => None
  end.

(** [c['params'][1], c['params'][2]] *)
Definition method_and_params (c : json) : outcome (json * json) :=
  p ← getitem_str c "params";
  method ← getitem_idx p 1;
  p' ← getitem_str c "params";
  params ← getitem_idx p' 2;
  Return (method, params).

(** [result['id'] = v] *)
Definition set_id (result : json) (v : json) : outcome json :=
  match result with
  | JDict d => Return (JDict (dict_set "id" v d))
  | JList _ => Raise (Exn TypeError "list indices must be integers or slices, not str")
  | _ => Raise (Exn TypeError "object does not support item assignment")
  end.

(** The call made once the node is known: either branch of the [if]. *)
Definition dispatch (E : env) (node : Node) (port method params : json)
  : list call * outcome json :=
  let user := rpc_user node in
  let password := rpc_password node in
  match intercepted method with
  | Some m =>
      match node_method E node m with
      | Return implementation =>
          match unpack params with
          | Return args =>
              ([NodeCall node m args],
               v ← implementation args; Return (JDict [("result", v)]))
          | Raise e => ([], Raise e)
          end
      | Raise e => ([], Raise e)
      end
  | None =>
      match unpack params with
      | Return args =>
          ([RpcCall "localhost" port user password method args],
           rpc_call E "localhost" port user password method args)
      | Raise e => ([], Raise e)
      end
  end.

(** The body of the [try]. *)
Definition try_body (E : env) (nodes : list Node) (c : pydict) (port method params : json)
  : list call * outcome json :=
  match find_local_node (repr_container E) nodes port with
  | Return node =>
      let '(calls, called) := dispatch E node port method params in
      (calls, result ← called; id ← dict_getitem "id" c; set_id result id)
  | Raise e => ([], Raise e)
  end.

Definition error_envelope (id : json) (message : string) : json :=
  JDict [("id", id); ("error", JDict [("message", JStr message)])].

Definition not_found_message (E : env) (port : json) : string :=
  "Could not find active node on port " ++ format (repr_container E) port.

(** The two [except] clauses, applied to the outcome of the [try]. *)
Definition handlers (E : env) (c : pydict) (port : json) (tried : outcome json)
  : outcome json :=
  match tried with
  | Return result => Return result
  | Raise e =>
      if caught_by e ValueError then
        id ← dict_getitem "id" c;
        Return (error_envelope id (not_found_message E port))
      else if caught_by e RPCError then
        id ← dict_getitem "id" c;
        Return (error_envelope id (exn_msg e))
      else Raise e
  end.

(** The three [pop]s: the port, the forwarding credentials and the envelope
    [c] as they leave it. *)
Definition pop_fields (c0 : pydict) : json * json * json * pydict :=
  let '(port, c1) := dict_pop "wallet_port" JNull c0 in
  let '(proxy_user, c2) := dict_pop "proxy_user" (JStr "") c1 in
  let '(proxy_password, c3) := dict_pop "proxy_password" (JStr "") c2 in
  (port, proxy_user, proxy_password, c3).

(** [json_rpc_call], from the parsed request [c] on: the calls it makes and
    the value handed to [jsonify], or the exception that leaves it. *)
Definition json_rpc_call (E : env) (nodes : list Node) (c : json)
  : list call * outcome json :=
  match method_and_params c with
  | Raise e => ([], Raise e)
  | Return (method, params) =>
      match c with
      | JDict c0 =>
          let '(port, proxy_user, proxy_password, c3) := pop_fields c0 in
          let '(calls, tried) := try_body E nodes c3 port method params in
          (calls, handlers E c3 port tried)
      | _ => ([], Raise (Exn AttributeError "pop"))
      end
  end.


(** The port an envelope names ([None] when it names none). *)
Definition envelope_port (c0 : pydict) : json := default JNull (dict_get "wallet_port" c0).

(** An envelope without its forwarding credentials. *)
Definition strip_credentials (c0 : pydict) : pydict :=
  dict_del "proxy_password" (dict_del "proxy_user" c0).


End Gateway.

(** ** The seed prober: [check_seed_status] and [view_seed_nodes] *)

Module Prober.

(** The socket object [s] of [check_seed_status]. *)
Record socket := {
  sock_timeout : option Z;   (* seconds; [None]: blocking *)
  sock_connected : bool;
  sock_closed : bool
}.

(** What a probe meets outside [views.py]. *)
Record env := {
  (** [int(port)] *)
  py_int : string → outcome Z;
  (** [s.connect((host, port))] under the socket's timeout: [None] when the
      connection is established, the exception raised otherwise *)
  sock_connect : option Z → string → Z → option exn;
  (** [s.recv(bufsize)] on the established connection, under the socket's
      timeout: the bytes received (none when the peer has closed) *)
  sock_recv : option Z → string → Z → nat → outcome string
}.

(** [s.split(sep)] for a one-character separator. *)
Fixpoint split_on (sep : ascii) (s : string) : list string :=
  match s with
  | EmptyString => [EmptyString]
  | String a s' =>
      if decide (a = sep) then EmptyString :: split_on sep s'
      else match split_on sep s' with
           | piece :: pieces => String a piece :: pieces
           | [] => [String a EmptyString]
           end
  end.

Definition new_socket : socket :=
  {| sock_timeout := None; sock_connected := false; sock_closed := false |}.

Definition settimeout (s : socket) (t : Z) : socket :=
  {| sock_timeout := Some t; sock_connected := sock_connected s; sock_closed := sock_closed s |}.

Definition connected (s : socket) : socket :=
  {| sock_timeout := sock_timeout s; sock_connected := true; sock_closed := sock_closed s |}.

Definition close (s : socket) : socket :=
  {| sock_timeout := sock_timeout s; sock_connected := false; sock_closed := true |}.

(** [check_seed_status]: the socket as the function leaves it ([None] when
    none was created) and the status returned or the exception raised. *)
Definition check_seed_status (E : env) (seed : string) : option socket * outcome string :=
  match split_on ":" seed with
  | [host; port] =>
      let s := settimeout new_socket 3 in
      match py_int E port with
      | Raise e =>
          if caught_by e ConnectionError || caught_by e SocketTimeout
          then (Some s, Return "offline") else (Some s, Raise e)
      | Return p =>
          match sock_connect E (sock_timeout s) host p with
          | Some e =>
              if caught_by e ConnectionError || caught_by e SocketTimeout
              then (Some s, Return "offline") else (Some s, Raise e)
          | None =>
              let s := connected s in
              match sock_recv E (sock_timeout s) host p 256 with
              | Raise e =>
                  if caught_by e SocketTimeout
                  then (Some s, Return "stuck") else (Some s, Raise e)
              | Return _ => (Some (close s), Return "online")
              end
          end
      end
  | [_] => (None, Raise (Exn ValueError "not enough values to unpack (expected 2, got 1)"))
  | _ => (None, Raise (Exn ValueError "too many values to unpack (expected 2)"))
  end.

(** The seed lists of [view_seed_nodes]. *)
Definition seed_nodes (chain : string) : list string :=
  if decide (chain = "bts") then
    ["faucet.bitshares.org:1776"; "bitshares.openledger.info:1776";
     "bts-seed1.abit-more.com:62015"; "seed.blocktrades.us:1776";
     "seed.bitsharesnodes.com:1776"; "seed04.bitsharesnodes.com:1776";
     "seed05.bitsharesnodes.com:1776"; "seed06.bitsharesnodes.com:1776";
     "seed07.bitsharesnodes.com:1776"; "seed.cubeconnex.com:1777";
     "54.85.252.77:39705"; "104.236.144.84:1777"; "40.127.190.171:1777";
     "185.25.22.21:1776"; "212.47.249.84:50696"; "104.168.154.160:50696";
     "128.199.143.47:2015"]
  else if decide (chain = "muse") then
    ["81.89.101.133:1777"; "104.238.191.99:1781"; "120.24.182.36:8091";
     "128.199.143.47:2017"; "139.129.54.169:8091"; "139.196.182.71:9091";
     "159.203.251.178:1776"; "185.82.203.92:1974"; "192.241.190.227:5197";
     "192.241.208.17:5197"; "54.165.143.33:5197"; "45.55.13.98:1776";
     "81.89.101.133:1777"]
  else if decide (chain = "steem") then
    ["212.117.213.186:2016"; "185.82.203.92:2001"; "52.74.152.79:2001";
     "52.63.172.229:2001"; "104.236.82.250:2001"; "104.199.157.70:2001";
     "steem.kushed.com:2001"; "steemd.pharesim.me:2001"; "seed.steemnodes.com:2001";
     "steemseed.dele-puppy.com:2001"; "seed.steemwitness.com:2001";
     "seed.steemed.net:2001"; "steem-seed1.abit-more.com:2001";
     "steem.clawmap.com:2001"; "52.62.24.225:2001"; "steem-id.altexplorer.xyz:2001";
     "213.167.243.223:2001"; "162.213.199.171:34191"; "45.55.217.111:12150";
     "212.47.249.84:40696"; "52.4.250.181:39705"; "81.89.101.133:2001";
     "109.74.206.93:2001"; "192.99.4.226:2001"; "46.252.27.1:1337"]
  else [].

(** Time is counted in milliseconds. *)
Definition join_timeout : N := 5000.

(** The run of the threads and of the view that started them, by the
    instants of one clock, fine enough to tell apart what the interpreter
    does one thing after the other. *)
Record world := {
  (** what the sockets of the i-th thread meet *)
  probe_env : nat → env;
  (** the instant at which the i-th thread makes the assignment
      [seed_status[s] = check_seed_status(s)], if its check ever returns *)
  stored : nat → option N;
  (** the instant at which the i-th thread terminates, if it ever does *)
  finish : nat → option N;
  (** the instant at which the loop over [threads] begins *)
  join_start : N;
  (** the instant of the k-th [seed_status.get(seed)], k = 0, 1, 2, in the
      item of [data] for the i-th seed *)
  lookup_at : nat → nat → N
}.

(** The world in which the probe of the i-th thread meets [E] instead. *)
Definition with_probe_env (w : world) (i : nat) (E : env) : world :=
  {| probe_env := λ j, if decide (j = i) then E else probe_env w j;
     stored := stored w;
     finish := finish w;
     join_start := join_start w;
     lookup_at := lookup_at w |}.

(** [t.join(timeout=5)] called at [now] on a thread that terminates at
    [fin]: the instant at which the call returns. *)
Definition join (now : N) (fin : option N) : N :=
  match fin with
  | Some f => if (f <=? now)%N then now else N.min f (now + join_timeout)
  | None => (now + join_timeout)%N
  end.

(** The loop [for t in threads: t.join(timeout=5)]: the instant it ends. *)
Definition join_all (start : N) (fins : list (option N)) : N := foldl join start fins.

(** The instant at which [join] is called on the i-th thread; for [i] the
    number of threads, the instant at which the loop ends. *)
Definition join_called (w : world) (i : nat) : N :=
  join_all (join_start w) (finish w <$> seq 0 i).

(** [t.is_alive()] when the [join] of the i-th thread has returned: the
    thread did not terminate within the five seconds. *)
Definition is_alive_after_join (w : world) (i : nat) : bool :=
  match finish w i with
  | Some f => (join_called w i + join_timeout <? f)%N
  | None => true
  end.

(** A thread's [seed_status[s] = check_seed_status(s)]: the assignment is
    made at the instant [stored], before the last [log.debug] of the thread
    and its end, and is not made when the check raised. *)
Definition write_of (w : world) (i : nat) (seed : string) : option (N * (string * string)) :=
  match stored w i, (check_seed_status (probe_env w i) seed).2 with
  | Some t, Return status => Some (t, (seed, status))
  | _, _ => None
  end.

(** The assignments made no later than [T], in threads' order. *)
Definition writes_until (w : world) (T : N) (seeds : list string)
  : list (N * (string * string)) :=
  filter (λ fw, (fw.1 ≤ T)%N) (omap id (imap (write_of w) seeds)).

Definition earlier (a b : N * (string * string)) : Prop := (a.1 ≤ b.1)%N.

#[global] Instance earlier_dec a b : Decision (earlier a b).
Proof. unfold earlier. apply _. Defined.

(** [seed_status[s] = status], and the dictionary [seed_status] once the
    assignments [ws] are made in order of time. *)
Definition assign (m : gmap string string) (fw : N * (string * string))
  : gmap string string :=
  <[fw.2.1 := fw.2.2]> m.

Definition seed_status_after (ws : list (N * (string * string))) : gmap string string :=
  foldl assign ∅ (merge_sort earlier ws).

(** The dictionary [seed_status] as a look-up at the instant [T] finds it:
    an assignment made at the instant of a look-up counts as made before
    it. *)
Definition seed_status_at (w : world) (seeds : list string) (T : N) : gmap string string :=
  seed_status_after (writes_until w T seeds).

Definition dq : string := String "034"%char EmptyString.

Definition div (style text : string) : string :=
  "<div class=" ++ dq ++ "btn btn-xs " ++ style ++ dq ++ ">" ++ text ++ "</div>".

(** One item of the list [data].  The conditional expression looks
    [seed_status] up once for each test it reaches and once more for the
    label, and the threads that are still running may assign in between:
    [first], [second] and [third] are the dictionary as the three look-ups
    find it. *)
Definition row (first second third : gmap string string) (seed : string)
  : string * string :=
  if decide (first !! seed = Some "online") then (seed, div "btn-success" "online")
  else if decide (second !! seed = Some "stuck") then (seed, div "btn-warning" "stuck")
  else (seed, div "btn-danger" (default "offline" (third !! seed))).

(** The item for [seed] when all three look-ups find [status]. *)
Definition settled (seed status : string) : string * string :=
  let seed_status : gmap string string := {[seed := status]} in
  row seed_status seed_status seed_status seed.

(** The list [data] of [view_seed_nodes] as the comprehension builds it, item
    by item, each look-up finding [seed_status] as it is at its own
    instant. *)
Definition seed_rows (w : world) (seeds : list string) : list (string * string) :=
  imap (λ i seed,
          row (seed_status_at w seeds (lookup_at w i 0))
              (seed_status_at w seeds (lookup_at w i 1))
              (seed_status_at w seeds (lookup_at w i 2)) seed) seeds.

(** What the text of the program imposes on the instants of a run: a thread
    assigns before it ends, and has assigned when it ends after a check that
    returned; the items of [data] are built after the loop over [threads],
    one after the other, and the look-ups of an item are made in their
    order. *)
Definition program_order (w : world) (seeds : list string) : Prop :=
  (∀ i t f, stored w i = Some t → finish w i = Some f → (t ≤ f)%N)
  ∧ (∀ i seed f status, seeds !! i = Some seed → finish w i = Some f →
       (check_seed_status (probe_env w i) seed).2 = Return status →
       is_Some (stored w i))
  ∧ (∀ i, (join_called w (length seeds) ≤ lookup_at w i 0)%N)
  ∧ (∀ i, (lookup_at w i 0 ≤ lookup_at w i 1)%N
          ∧ (lookup_at w i 1 ≤ lookup_at w i 2)%N
          ∧ (lookup_at w i 2 ≤ lookup_at w (S i) 0)%N).

(** [split_columns] *)
Definition split_columns (items : list (string * string)) (attrs : gmap string (list (nat * nat)))
  : list (string * string * string * string) * gmap string (list (nat * nat)) :=
  let n := length items in
  let '(items, n) := if decide (n mod 2 = 1) then ((items ++ [("", "")])%list, n + 1) else (items, n) in
  let offset := n / 2 in
  let items := (λ p, (p.1.1, p.1.2, p.2.1, p.2.2)) <$> zip (take offset items) (drop offset items) in
  let attrs := fmap (M := gmap string)
                 (fmap (λ ij : nat * nat,
                    if decide (ij.1 < offset) then ij else (ij.1 - offset, ij.2 + 2))) attrs in
  (items, attrs).

(** The arguments [view_seed_nodes] hands to the template.  (Its decorators
    [clear_rpc_cache], [catch_error] and [core.profile] wrap the body given
    here.) *)
Record page := {
  title : string;
  headers : list string;
  data : list (string * string * string * string);
  order : string
}.

Definition view_seed_nodes (w : world) (chain : string) : page :=
  let seeds := seed_nodes chain in
  let data := seed_rows w seeds in
  let '(data, attrs) := split_columns data ∅ in
  {| title := chain ++ " seed nodes";
     headers := (["seed host"; "status"] ++ ["seed host"; "status"])%list;
     data := data;
     order := "[]" |}.

End Prober.

Import Gateway Prober.

(** ** Fixtures: a registry, envelopes, endpoints *)

Module Fixtures.

Definition nodeA : Node :=
  {| bts_type := "bts"; rpc_host := "localhost"; rpc_port := 1234; name := "nodeA";
     rpc_user := "alice"; rpc_password := "s3cret"; is_localhost := true |}.

Definition nodeB : Node :=
  {| bts_type := "muse"; rpc_host := "10.0.0.2"; rpc_port := 8092; name := "nodeB";
     rpc_user := "bob"; rpc_password := "hunter2"; is_localhost := false |}.

Definition registry : list Node := [nodeB; nodeA].

Definition st0 : state := {| nodes := registry; main_node := Some nodeB; is_online := true |}.

(** A node that answers the intercepted calls itself and a wallet that
    answers [info] and rejects everything else. *)
Definition gw : Gateway.env :=
  {| node_method := λ node m, Return (λ args, Return (JStr (name node ++ "." ++ m)));
     rpc_call := λ host port user password method args,
       match method with
       | JStr "info" => Return (JDict [("id", JNum 0); ("result", JStr "head_block 42")])
       | _ => Raise (Exn RPCError "Method not found")
       end;
     repr_container := λ _, "[...]" |}.

Definition envelope (id : json) (method : string) (port : option Z) (creds : pydict)
  : pydict :=
  ([("id", id); ("method", JStr "call");
    ("params", JList [JNum 0; JStr method; JList []])]
   ++ match port with Some p => [("wallet_port", JNum p)] | None => [] end
   ++ creds)%list.

Definition digit_of (a : ascii) : option Z :=
  let n := Z.of_nat (nat_of_ascii a) in
  if decide (48 ≤ n ≤ 57)%Z then Some (n - 48)%Z else None.

Fixpoint digits (acc : Z) (s : string) : option Z :=
  match s with
  | EmptyString => Some acc
  | String a s' => d ← digit_of a; digits (10 * acc + d) s'
  end.

(** [int] on a plain decimal literal. *)
Definition parse_decimal (s : string) : outcome Z :=
  match s, digits 0 s with
  | String _ _, Some z => Return z
  | _, _ => Raise (Exn ValueError "invalid literal for int() with base 10")
  end.

(** Endpoints, by what a probe meets. *)
Definition endpoint (connect : option exn) (recv : outcome string) : Prober.env :=
  {| py_int := parse_decimal;
     sock_connect := λ _ _ _, connect;
     sock_recv := λ _ _ _ _, recv |}.

Definition refusing : Prober.env :=
  endpoint (Some (Exn ConnectionRefusedError "[Errno 111] Connection refused")) (Return "").
Definition unreachable : Prober.env :=
  endpoint (Some (Exn OSError "[Errno 113] No route to host")) (Return "").
Definition silent : Prober.env :=
  endpoint None (Raise (Exn SocketTimeout "timed out")).
Definition greeting : Prober.env := endpoint None (Return "hello").
Definition closing : Prober.env := endpoint None (Return "").

(** Look-ups that begin a millisecond after [T] and follow one another at
    one millisecond. *)
Definition after (T : N) (i k : nat) : N := (T + 1 + 3 * N.of_nat i + N.of_nat k)%N.

(** Two peers that accept and stay silent, the first thread ending 5.5 s and
    the second 6 s after the loop over the threads begins, each 10 ms after
    it has stored its status. *)
Definition slow_pair : world :=
  {| probe_env := λ _, silent;
     stored := λ i, match i with 0 => Some 5490%N | _ => Some 5990%N end;
     finish := λ i, match i with 0 => Some 5500%N | _ => Some 6000%N end;
     join_start := 0;
     lookup_at := after 6000 |}.

(** A refusing, a silent and a greeting peer, all done within a few
    seconds; a fourth probe that is greeted after 9 s, when the page has
    been built. *)
Definition mixed : world :=
  {| probe_env := λ i, match i with 0 => refusing | 1 => silent | _ => greeting end;
     stored := λ i, match i with
                    | 0 => Some 9%N | 1 => Some 3019%N | 2 => Some 899%N | _ => Some 9000%N
                    end;
     finish := λ i, match i with
                    | 0 => Some 10%N | 1 => Some 3020%N | 2 => Some 900%N | _ => Some 9010%N
                    end;
     join_start := 0;
     lookup_at := after 8020 |}.

Definition info_call : pydict := envelope (JNum 7) "info" (Some 1234%Z) [].
Definition peers_call : pydict :=
  envelope (JNum 7) "network_get_info" (Some 1234%Z)
    [("proxy_user", JStr "mallory"); ("proxy_password", JStr "letmein")].
Definition stray_call : pydict := envelope (JNum 3) "transfer" (Some 9999%Z) [].

Definition four_seeds : list string :=
  ["198.51.100.1:1776"; "198.51.100.2:1776"; "198.51.100.3:1776"; "198.51.100.4:1776"].

(** A peer that greets after 5.4 s and a silent one given up after 5.9 s. *)
Definition late_greeting : world :=
  {| probe_env := λ i, match i with 0 => greeting | _ => silent end;
     stored := λ i, match i with 0 => Some 5390%N | _ => Some 5890%N end;
     finish := λ i, match i with 0 => Some 5400%N | _ => Some 5900%N end;
     join_start := 0;
     lookup_at := after 5900 |}.

Definition two_seeds : list string := ["198.51.100.7:1776"; "198.51.100.8:1776"].

(** A peer whose greeting is stored between the first and the second look-up
    of its item. *)
Definition torn : world :=
  {| probe_env := λ _, greeting;
     stored := λ _, Some 5002%N;
     finish := λ _, Some 5003%N;
     join_start := 0;
     lookup_at := after 5000 |}.

End Fixtures.

(** ** Cells of the two layouts of [split_columns] *)

Module Layout.

(** The cell in column [j] of the i-th item, before [split_columns]. *)
Definition item_cell (items : list (string * string)) (i j : nat) : option string :=
  p ← items !! i;
  match j with
  | 0 => Some p.1
  | 1 => Some p.2
  | _ => None
  end.

(** The cell in column [j] of the i-th row, after [split_columns]. *)
Definition row_cell (rows : list (string * string * string * string)) (i j : nat)
  : option string :=
  r ← rows !! i;
  match j with
  | 0 => Some r.1.1.1
  | 1 => Some r.1.1.2
  | 2 => Some r.1.2
  | 3 => Some r.2
  | _ => None
  end.

(** The items with the pair of empty strings [split_columns] appends to an
    odd number of them. *)
Definition padded (items : list (string * string)) : list (string * string) :=
  (items ++ if decide (length items mod 2 = 1) then [("", "")] else [])%list.

(** The number of times a character occurs in a string. *)
Fixpoint occurrences (a : ascii) (s : string) : nat :=
  match s with
  | EmptyString => 0
  | String b s' => (if decide (b = a) then 1 else 0) + occurrences a s'
  end.

End Layout.

(** ** Requests to [/rpchost], one after the other *)

Module Session.

(** The requests [(bts_type, host, name, url)] served in order by
    [set_rpchost], each on the state the one before left: the final state and
    the responses. *)
Definition serve (st : state) (requests : list (string * string * string * string))
  : state * list response :=
  foldl (λ acc request,
           let '(type, host, nm, url) := request in
           let '(st', resp) := set_rpchost acc.1 type host nm url in
           (st', (acc.2 ++ [resp])%list))
        (st, []) requests.

(** The node a request selects, if any. *)
Definition selected (nodes : list Node) (request : string * string * string * string)
  : option Node :=
  let '(type, host, nm, url) := request in
  match find_node nodes type host nm with
  | Return node => Some node
  | Raise _ => None
  end.

End Session.

(** ** The table views: [view_logs], the peer views, the colours of [view_info] *)

Module Views.

(** [attrs]: for a style, the cells (row, column) that carry it. *)
Abbreviation cell_attrs := (gmap string (list (nat * nat))).

(** [attrs[style].extend(cells)] on the [defaultdict(list)]. *)
Definition extend (style : string) (cells : list (nat * nat)) (attrs : cell_attrs)
  : cell_attrs :=
  <[style := (default [] (attrs !! style) ++ cells)%list]> attrs.

(** The keyword arguments of [render_template] for a table. *)
Record table (row : Type) := Table {
  template : string;
  title : option string;
  headers : list string;
  data : list row;
  attrs : cell_attrs;
  order : string
}.
Arguments Table {row}.
Arguments template {row}.
Arguments title {row}.
Arguments headers {row}.
Arguments data {row}.
Arguments attrs {row}.
Arguments order {row}.

(** *** [view_logs] *)

(** What [view_logs] reads of a log record. *)
Record LogRecord := {
  asctime : string;
  levelname : string;
  name : string;
  lineno : Z;
  funcName : string;
  msg : string
}.

Definition log_row (r : LogRecord) : string * string * string * string :=
  (asctime r, levelname r,
   name r ++ ":" ++ pretty (lineno r) ++ " " ++ funcName r,
   msg r).

(** The [if]/[elif] chain on [d[1]]. *)
Definition level_colour (level : string) : option string :=
  if decide (level = "INFO") then Some "green"
  else if decide (level = "DEBUG") then Some "blue"
  else if decide (level = "WARNING") then Some "orange"
  else if decide (level = "ERROR") then Some "red"
  else None.

(** One turn of the loop over [enumerate(data)]. *)
Definition colour_log_row (attrs : cell_attrs)
    (id : nat * (string * string * string * string)) : cell_attrs :=
  match level_colour id.2.1.1.2 with
  | Some colour => extend colour [(id.1, 1); (id.1, 2)] attrs
  | None => attrs
  end.

(** The body of [view_logs], from [records = list(slogging.log_records)] on. *)
Definition view_logs (records : list LogRecord)
  : table (string * string * string * string) :=
  let data := log_row <$> reverse records in
  let attrs := foldl colour_log_row ∅ (imap pair data) in
  Table "tableview.html" None ["Timestamp"; "Level"; "Logger"; "Message"] data attrs "[]".

(** *** The peer views *)

(** The calls on [rpc.main_node] and on [backbone] the peer views make. *)
Record node_api := {
  network_get_connected_peers : outcome (list json);
  network_get_potential_peers : outcome (list json);
  (** [backbone.node_list(rpc.main_node)] *)
  node_list : outcome (list string)
}.

(** What a peer view renders: a table, or [error.html] with a message. *)
Inductive page :=
| TablePage (t : table (list json))
| ErrorPage (message : string).


(** The loop that appends [(i, c)], for each column [c] of [columns], to
    [attrs['datetime']], for [i] from 0 to [n - 1]. *)
Definition datetime_cells (columns : list nat) (n : nat) : cell_attrs :=
  foldl (λ attrs i, foldl (λ attrs c, extend "datetime" [(i, c)] attrs) attrs columns)
        ∅ (seq 0 n).

Definition desc_order : string := "[[ 1, " ++ dq ++ "desc" ++ dq ++ " ]]".



Definition lc : string := "last_connection_".

(** [s[n:]] *)
Fixpoint drop_chars (n : nat) (s : string) : string :=
  match n, s with
  | S n', String _ s' => drop_chars n' s'
  | _, _ => s
  end.

(** The local function [fmt] of [view_potential_peers]. *)
Definition fmt (conn_status : json) : outcome json :=
  match conn_status with
  | JStr s =>
      Return (JStr (if String.prefix lc s then drop_chars (String.length lc) s else s))
  | _ => Raise (Exn AttributeError "startswith")
  end.

(** One tuple of [data] in [view_potential_peers]. *)
Definition potential_peer_row (p : json) : outcome (list json) :=
  endpoint ← getitem_str p "endpoint";
  attempt ← getitem_str p "last_connection_attempt_time";
  disposition ← getitem_str p "last_connection_disposition";
  status ← fmt disposition;
  seen ← getitem_str p "last_seen_time";
  successful ← getitem_str p "number_of_successful_connection_attempts";
  failed ← getitem_str p "number_of_failed_connection_attempts";
  Return [endpoint; attempt; status; seen; successful; failed].

(** The body of [view_potential_peers]. *)
Definition view_potential_peers (api : node_api) : outcome page :=
  peers ← network_get_potential_peers api;
  let peers := take 300 peers in
  let attrs := datetime_cells [1; 3] (length peers) in
  data ← mapM potential_peer_row peers;
  Return (TablePage
            (Table "network.html" (Some "Potential peers")
               ["Address"; "Last connection time"; "Last connection status"; "Last seen";
                "Successful connections"; "Failed connections"]
               data attrs desc_order)).





(** *** The colours of [view_info] *)

(** Python's floats, as far as the loop uses them: [float(value)] and
    [value < k] for an integer literal [k]. *)
Record float_ops := {
  pyfloat : Type;
  float_of : json → outcome pyfloat;
  float_lt : pyfloat → Z → bool
}.

(** [bool(v)] *)
Definition truthy (v : json) : bool :=
  match v with
  | JNull => false
  | JBool b => b
  | JNum z => negb (z =? 0)%Z
  | JStr s => negb (bool_decide (s = ""))
  | JList l => negb (bool_decide (l = []))
  | JDict d => match d with [] => false | _ => true end
  end.

(** The integer a value is compared as, when it can be compared with one. *)
Definition as_int (v : json) : option Z :=
  match v with
  | JNum z => Some z
  | JBool b => Some (if b then 1 else 0)%Z
  | _ => None
  end.

(** [v >= k] *)
Definition ge_int (v : json) (k : Z) : outcome bool :=
  match as_int v with
  | Some z => Return (k <=? z)%Z
  | None => Raise (Exn TypeError "'>=' not supported between these instances")
  end.

(** [v < k] *)
Definition lt_int (v : json) (k : Z) : outcome bool :=
  match as_int v with
  | Some z => Return (z <? k)%Z
  | None => Raise (Exn TypeError "'<' not supported between these instances")
  end.

(** The local function [green_if_true] for row [i]. *)
Definition green_if_true (i : nat) (cond : bool) (attrs : cell_attrs) : cell_attrs :=
  if cond then extend "green" [(i, 1)] attrs else extend "red" [(i, 1)] attrs.

Definition wallet_flags : list string :=
  ["wallet_open"; "wallet_unlocked"; "wallet_block_production_enabled"].

Definition timestamps : list string :=
  ["blockchain_head_block_timestamp"; "blockchain_next_round_timestamp"; "ntp_time";
   "wallet_last_scanned_block_timestamp"; "wallet_next_block_production_timestamp";
   "wallet_unlocked_until_timestamp"].

(** One turn of the loop over [enumerate(info_items)]; [is_witness] is what
    [rpc.main_node.is_witness()] returns. *)
Definition colour_info_item (F : float_ops) (is_witness : bool) (attrs : cell_attrs)
    (i : nat) (prop : string) (value : json) : outcome cell_attrs :=
  if decide (prop ∈ wallet_flags) then
    Return (if is_witness then green_if_true i (truthy value) attrs else attrs)
  else if decide (prop = "network_num_connections") then
    cond ← ge_int value 5;
    Return (green_if_true i cond attrs)
  else if decide (prop = "blockchain_head_block_age") then
    cond ← match value with JNull => Return false | _ => lt_int value 60 end;
    Return (green_if_true i cond attrs)
  else if decide (prop = "blockchain_average_delegate_participation") then
    value ← float_of F value;
    Return (if float_lt F value 90 then extend "orange" [(i, 1)] attrs
            else if float_lt F value 80 then extend "red" [(i, 1)] attrs
            else attrs)
  else if decide (prop = "wallet_next_block_production_time") then
    (if truthy value then lt_int value 60 else Return false) ≫= λ cond : bool,
    Return (if cond then extend "orange" [(i, 1)] attrs else attrs)
  else if decide (prop ∈ timestamps) then
    Return match value with JNull => attrs | _ => extend "datetime" [(i, 1)] attrs end
  else Return attrs.

(** The style one turn of the loop gives the value cell of an item, if any. *)
Definition item_style (F : float_ops) (is_witness : bool) (prop : string) (value : json)
  : outcome (option string) :=
  if decide (prop ∈ wallet_flags) then
    Return (if is_witness then Some (if truthy value then "green" else "red") else None)
  else if decide (prop = "network_num_connections") then
    ge_int value 5 ≫= λ cond : bool, Return (Some (if cond then "green" else "red"))
  else if decide (prop = "blockchain_head_block_age") then
    match value with JNull => Return false | _ => lt_int value 60 end
      ≫= λ cond : bool, Return (Some (if cond then "green" else "red"))
  else if decide (prop = "blockchain_average_delegate_participation") then
    x ← float_of F value;
    Return (if float_lt F x 90 then Some "orange"
            else if float_lt F x 80 then Some "red" else None)
  else if decide (prop = "wallet_next_block_production_time") then
    (if truthy value then lt_int value 60 else Return false)
      ≫= λ cond : bool, Return (if cond then Some "orange" else None)
  else if decide (prop ∈ timestamps) then
    Return match value with JNull => None | _ => Some "datetime" end
  else Return None.

(** The loop, from row [i] on. *)
Fixpoint colour_info_items (F : float_ops) (is_witness : bool) (attrs : cell_attrs)
    (i : nat) (info_items : list (string * json)) : outcome cell_attrs :=
  match info_items with
  | [] => Return attrs
  | (prop, value) :: rest =>
      attrs' ← colour_info_item F is_witness attrs i prop value;
      colour_info_items F is_witness attrs' (S i) rest
  end.

(** [attrs] of [view_info] once [attrs['bold']] is set and the loop over the
    sorted [info_items] is done. *)
Definition info_attrs (F : float_ops) (is_witness : bool) (info_items : list (string * json))
  : outcome cell_attrs :=
  colour_info_items F is_witness
    {["bold" := (λ i, (i, 0)) <$> seq 0 (length info_items)]} 0 info_items.

End Views.

(** ** More fixtures *)

Module Samples.

Import Fixtures.

Definition requests : list (string * string * string * string) :=
  [("muse", "10.0.0.2:8092", "nodeB", "/info");
   ("bts", "localhost:1234", "nodeA", "/status");
   ("bts", "localhost:1234", "ghost", "/peers")].

Definition records : list Views.LogRecord :=
  [{| Views.asctime := "2016-05-01 10:00:00"; Views.levelname := "INFO";
      Views.name := "bts_tools.core"; Views.lineno := 12; Views.funcName := "run";
      Views.msg := "started" |};
   {| Views.asctime := "2016-05-01 10:00:01"; Views.levelname := "CRITICAL";
      Views.name := "bts_tools.rpcutils"; Views.lineno := 240; Views.funcName := "rpc_call";
      Views.msg := "lost" |};
   {| Views.asctime := "2016-05-01 10:00:02"; Views.levelname := "ERROR";
      Views.name := "bts_tools.views"; Views.lineno := 88; Views.funcName := "wrapper";
      Views.msg := "While processing view_info()" |}].

Definition peer (addr : string) (more : pydict) : json :=
  JDict ([("addr", JStr addr); ("conntime", JStr "2016-05-01T09:00:00")] ++ more)%list.

Definition potential (endpoint disposition : string) : json :=
  JDict [("endpoint", JStr endpoint);
         ("last_connection_attempt_time", JStr "2016-05-01T09:00:00");
         ("last_connection_disposition", JStr disposition);
         ("last_seen_time", JStr "2016-05-01T09:30:00");
         ("number_of_successful_connection_attempts", JNum 3);
         ("number_of_failed_connection_attempts", JNum 1)].

Definition api : Views.node_api :=
  {| Views.network_get_connected_peers :=
       Return [peer "1.2.3.4:1776" [("platform", JStr "linux")]; peer "5.6.7.8:1776" []];
     Views.network_get_potential_peers :=
       Return [potential "1.2.3.4:1776" "last_connection_succeeded";
               potential "9.9.9.9:1776" "never_attempted_to_connect"];
     Views.node_list := Return ["5.6.7.8:1776"; "7.7.7.7:1776"] |}.

(** A wallet that rejects the credentials, and one whose answer is not JSON. *)
Definition gw_unauthorized : Gateway.env :=
  {| node_method := node_method gw;
     rpc_call := λ _ _ _ _ _ _, Raise (Exn UnauthorizedError "");
     repr_container := repr_container gw |}.

Definition gw_garbled : Gateway.env :=
  {| node_method := node_method gw;
     rpc_call := λ _ _ _ _ _ _,
       Raise (Exn ValueError "Expecting value: line 1 column 1 (char 0)");
     repr_container := repr_container gw |}.

(** A wallet that answers with a list. *)
Definition gw_batch : Gateway.env :=
  {| node_method := node_method gw;
     rpc_call := λ _ _ _ _ _ _, Return (JList [JNum 1]);
     repr_container := repr_container gw |}.


Definition anonymous_call : pydict :=
  [("params", JList [JNum 0; JStr "info"; JList []]); ("wallet_port", JNum 1234)].

(** Floats stood for by the integers. *)
Definition int_floats : Views.float_ops :=
  {| Views.pyfloat := Z;
     Views.float_of := λ v,
       match Views.as_int v with
       | Some z => Return z
       | None => Raise (Exn TypeError "float() argument must be a string or a real number")
       end;
     Views.float_lt := Z.ltb |}.

Definition info_items : list (string * json) :=
  [("blockchain_average_delegate_participation", JNum 75);
   ("blockchain_head_block_age", JNum 3);
   ("network_num_connections", JNum 2);
   ("wallet_open", JBool true)].

(** An endpoint listed twice: the probe of the first entry meets silence and
    ends after 3.02 s, that of the second is greeted and ends after 0.9 s. *)
Definition twin_seeds : list string := ["198.51.100.1:1776"; "198.51.100.1:1776"].

Definition twins : world :=
  {| probe_env := λ i, match i with 0 => silent | _ => greeting end;
     stored := λ i, match i with 0 => Some 3019%N | _ => Some 899%N end;
     finish := λ i, match i with 0 => Some 3020%N | _ => Some 900%N end;
     join_start := 0;
     lookup_at := after 3020 |}.

(** Three items, the value cells of the first and the last in green. *)
Definition table_items : list (string * string) := [("a", "1"); ("b", "2"); ("c", "3")].

Definition table_attrs : gmap string (list (nat * nat)) := {["green" := [(0, 1); (2, 1)]]}.

(** The envelope [info_call] with another [method] member and one member
    more. *)
Definition renamed_call : pydict :=
  [("note", JStr "x"); ("method", JStr "shutdown"); ("id", JNum 7);
   ("wallet_port", JNum 1234); ("params", JList [JNum 0; JStr "info"; JList []])].

End Samples.

(** * Properties *)

(** From here on [++] appends lists and [+:+] strings. *)
Local Open Scope list_scope.

(** ** Dictionaries *)

Section dict_facts.
Implicit Types (d : pydict) (k : string) (v : json).

Lemma dict_get_del_eq k d : dict_get k (dict_del k d) = None.
Proof.
  unfold dict_del. induction d as [|[k' v'] d IH]; [done|].
  rewrite filter_cons. simpl. case_decide; simpl; [|done].
  by rewrite decide_False.
Qed.

Lemma dict_get_del_ne k k' d : k ≠ k' → dict_get k (dict_del k' d) = dict_get k d.
Proof.
  intros Hne. unfold dict_del. induction d as [|[k0 v0] d IH]; [done|].
  rewrite filter_cons. simpl. case_decide as Hk; simpl.
  - by rewrite IH.
  - simpl in Hk. subst k0. by rewrite decide_False.
Qed.

Lemma dict_del_comm k k' d : dict_del k (dict_del k' d) = dict_del k' (dict_del k d).
Proof. unfold dict_del. rewrite !list_filter_filter. apply list_filter_iff. tauto. Qed.

Lemma dict_get_set_eq k v d : dict_get k (dict_set k v d) = Some v.
Proof.
  induction d as [|[k' v'] d IH]; simpl.
  - by rewrite decide_True.
  - case_decide; simpl; [by rewrite decide_True|]. by rewrite decide_False.
Qed.

Lemma dict_get_set_ne k k' v d : k ≠ k' → dict_get k (dict_set k' v d) = dict_get k d.
Proof.
  intros Hne. induction d as [|[k0 v0] d IH]; simpl.
  - by rewrite decide_False.
  - case_decide as Hk; simpl.
    + subst k0. by rewrite !decide_False.
    + by rewrite IH.
Qed.
End dict_facts.

(** ** The registry *)

Section registry_facts.
Implicit Types (nodes : list Node) (node : Node) (type host nm : string) (port : json).

Lemma node_matches_iff type host nm node :
  node_matches type host nm node = true ↔
  bts_type node = type ∧ host_port node = host ∧ name node = nm.
Proof.
  unfold node_matches. rewrite !andb_true_iff, !bool_decide_eq_true. tauto.
Qed.

Lemma local_node_matches_iff port node :
  local_node_matches port node = true ↔
  is_localhost node = true ∧ int_eq (rpc_port node) port = true.
Proof. unfold local_node_matches. by rewrite andb_true_iff. Qed.

Lemma int_eq_num x z : int_eq x (JNum z) = true ↔ x = z.
Proof. simpl. apply bool_decide_eq_true. Qed.

(** The loop of [find_node] stops at the first node that passes the test. *)
Lemma find_node_Return nodes type host nm node :
  find_node nodes type host nm = Return node ↔
  ∃ before after, nodes = before ++ node :: after
    ∧ Forall (λ n, node_matches type host nm n = false) before
    ∧ node_matches type host nm node = true.
Proof.
  induction nodes as [|n nodes IH]; simpl.
  - split; [done|]. intros ([|??] & ? & ? & _); done.
  - destruct (node_matches type host nm n) eqn:Hn.
    + split.
      * intros [= ->]. by exists [], nodes.
      * intros ([|n' before] & after & Heq & Hbefore & Hm); simplify_eq/=; [done|].
        apply Forall_cons in Hbefore as [? _]. congruence.
    + rewrite IH. split.
      * intros (before & after & -> & ? & ?). exists (n :: before), after.
        split_and!; [done| by constructor | done].
      * intros ([|n' before] & after & Heq & Hbefore & Hm); simplify_eq/=; [congruence|].
        apply Forall_cons in Hbefore as [_ ?]. by exists before, after.
Qed.

Lemma find_node_Raise nodes type host nm e :
  find_node nodes type host nm = Raise e ↔
  e = Exn ValueError ("Node not found: " +:+ type +:+ "/" +:+ host +:+ "/" +:+ nm)
  ∧ Forall (λ n, node_matches type host nm n = false) nodes.
Proof.
  induction nodes as [|n nodes IH]; simpl.
  - split; [intros [= <-]; by split | intros [-> _]; done].
  - destruct (node_matches type host nm n) eqn:Hn.
    + split; [done|]. intros [_ [? _]%Forall_cons]. congruence.
    + rewrite IH. split; intros [? ?]; split; try done.
      * by constructor.
      * by eapply Forall_cons.
Qed.

Lemma find_local_node_Return repr nodes port node :
  find_local_node repr nodes port = Return node ↔
  ∃ before after, nodes = before ++ node :: after
    ∧ Forall (λ n, local_node_matches port n = false) before
    ∧ local_node_matches port node = true.
Proof.
  induction nodes as [|n nodes IH]; simpl.
  - split; [done|]. intros ([|??] & ? & ? & _); done.
  - destruct (local_node_matches port n) eqn:Hn.
    + split.
      * intros [= ->]. by exists [], nodes.
      * intros ([|n' before] & after & Heq & Hbefore & Hm); simplify_eq/=; [done|].
        apply Forall_cons in Hbefore as [? _]. congruence.
    + rewrite IH. split.
      * intros (before & after & -> & ? & ?). exists (n :: before), after.
        split_and!; [done| by constructor | done].
      * intros ([|n' before] & after & Heq & Hbefore & Hm); simplify_eq/=; [congruence|].
        apply Forall_cons in Hbefore as [_ ?]. by exists before, after.
Qed.

Lemma find_local_node_Raise repr nodes port e :
  find_local_node repr nodes port = Raise e ↔
  e = Exn ValueError ("Node not found: localhost:" +:+ format repr port)
  ∧ Forall (λ n, local_node_matches port n = false) nodes.
Proof.
  induction nodes as [|n nodes IH]; simpl.
  - split; [intros [= <-]; by split | intros [-> _]; done].
  - destruct (local_node_matches port n) eqn:Hn.
    + split; [done|]. intros [_ [? _]%Forall_cons]. congruence.
    + rewrite IH. split; intros [? ?]; split; try done.
      * by constructor.
      * by eapply Forall_cons.
Qed.

(** C8. [find_node] walks the registered nodes in registration order and
    returns the first one whose chain type, "host:port" string and name
    equal the arguments, all three exactly; it fails with the node-not-found
    error (a [ValueError]) exactly when no registered node matches.
    [find_local_node] returns the first registered node that is on
    localhost and whose [rpc_port] equals the port, and fails with the same
    error exactly when there is none. *)
Theorem find_node_find_local_node_spec repr nodes type host nm port :
  (∀ node, find_node nodes type host nm = Return node ↔
     ∃ before after, nodes = before ++ node :: after
       ∧ Forall (λ n, ¬ (bts_type n = type ∧ host_port n = host ∧ name n = nm)) before
       ∧ bts_type node = type ∧ host_port node = host ∧ name node = nm)
  ∧ (∀ e, find_node nodes type host nm = Raise e ↔
       exn_cls e = ValueError
       ∧ exn_msg e = "Node not found: " +:+ type +:+ "/" +:+ host +:+ "/" +:+ nm
       ∧ Forall (λ n, ¬ (bts_type n = type ∧ host_port n = host ∧ name n = nm)) nodes)
  ∧ (∀ node, find_local_node repr nodes port = Return node ↔
       ∃ before after, nodes = before ++ node :: after
         ∧ Forall (λ n, ¬ (is_localhost n = true ∧ int_eq (rpc_port n) port = true)) before
         ∧ is_localhost node = true ∧ int_eq (rpc_port node) port = true)
  ∧ (∀ e, find_local_node repr nodes port = Raise e ↔
       exn_cls e = ValueError
       ∧ exn_msg e = "Node not found: localhost:" +:+ format repr port
       ∧ Forall (λ n, ¬ (is_localhost n = true ∧ int_eq (rpc_port n) port = true)) nodes)
  ∧ (∀ node p, port = JNum p → find_local_node repr nodes port = Return node →
       node ∈ nodes ∧ is_localhost node = true ∧ rpc_port node = p).
Proof.
  assert (Hn : ∀ l, Forall (λ n, node_matches type host nm n = false) l ↔
               Forall (λ n, ¬ (bts_type n = type ∧ host_port n = host ∧ name n = nm)) l).
  { intros l. apply Forall_proper; [|done]. intros n.
    rewrite <-node_matches_iff. by destruct (node_matches _ _ _ n). }
  assert (Hl : ∀ l, Forall (λ n, local_node_matches port n = false) l ↔
               Forall (λ n, ¬ (is_localhost n = true ∧ int_eq (rpc_port n) port = true)) l).
  { intros l. apply Forall_proper; [|done]. intros n.
    rewrite <-local_node_matches_iff. by destruct (local_node_matches port n). }
  split_and!.
  - intros node. rewrite find_node_Return.
    setoid_rewrite Hn. setoid_rewrite node_matches_iff. naive_solver.
  - intros [cls msg]. rewrite find_node_Raise, Hn. simpl. naive_solver.
  - intros node. rewrite find_local_node_Return.
    setoid_rewrite Hl. setoid_rewrite local_node_matches_iff. naive_solver.
  - intros [cls msg]. rewrite find_local_node_Raise, Hl. simpl. naive_solver.
  - intros node p -> (before & after & -> & _ & Hm)%find_local_node_Return.
    apply local_node_matches_iff in Hm as [? ?%int_eq_num].
    split_and!; [|done..]. set_solver.
Qed.
End registry_facts.

Section main_node_facts.
Implicit Types (st : state) (type host nm url : string).

(** The body of [set_rpchost] swallows the failed lookup: it always
    returns the redirect. *)
Lemma set_rpchost_body_returns st type host nm url :
  (set_rpchost_body st type host nm url).2 = Return (Redirect url).
Proof.
  unfold set_rpchost_body.
  destruct (find_node _ _ _ _) as [node|e] eqn:Hfind; [done|].
  apply find_node_Raise in Hfind as [-> _]. done.
Qed.

(** C7. For a target that matches no registered node, [set_rpchost] leaves
    the state, and with it the main-node reference, exactly as it was and
    raises nothing: its body already returns the redirect, the handler of
    [catch_error] is not entered.  For a matching target the main node
    becomes the node [find_node] returns, nothing else changes. *)
Theorem set_rpchost_spec st type host nm url :
  (set_rpchost_body st type host nm url).2 = Return (Redirect url)
  ∧ (Forall (λ n, ¬ (bts_type n = type ∧ host_port n = host ∧ name n = nm)) (nodes st) →
     set_rpchost st type host nm url = (st, Redirect url))
  ∧ (∀ node, find_node (nodes st) type host nm = Return node →
     set_rpchost st type host nm url =
       ({| nodes := nodes st; main_node := Some node; is_online := is_online st |},
        Redirect url)
     ∧ node ∈ nodes st
     ∧ bts_type node = type ∧ host_port node = host ∧ name node = nm).
Proof.
  split_and!.
  - apply set_rpchost_body_returns.
  - intros Hnone. unfold set_rpchost, set_rpchost_body.
    destruct (find_node _ _ _ _) as [node|e] eqn:Hfind.
    + apply find_node_Return in Hfind as (before & after & Heq & _ & Hm).
      apply node_matches_iff in Hm. rewrite Heq in Hnone.
      apply Forall_app in Hnone as [_ [? _]%Forall_cons]. done.
    + apply find_node_Raise in Hfind as [-> _]. done.
  - intros node Hfind. unfold set_rpchost, set_rpchost_body. rewrite Hfind. simpl.
    apply find_node_Return in Hfind as (before & after & Heq & _ & Hm).
    apply node_matches_iff in Hm. split; [done|]. split; [|done].
    rewrite Heq. set_solver.
Qed.
End main_node_facts.

(** ** The gateway *)

Section gateway_facts.
Variables (E : Gateway.env) (nodes : list Node).
Implicit Types (d c : pydict) (method params port id : json) (node : Node).

Lemma pop_fields_spec d :
  pop_fields d =
    (envelope_port d,
     default (JStr "") (dict_get "proxy_user" d),
     default (JStr "") (dict_get "proxy_password" d),
     dict_del "proxy_password" (dict_del "proxy_user" (dict_del "wallet_port" d))).
Proof.
  unfold pop_fields, dict_pop, envelope_port.
  by rewrite !dict_get_del_ne by done.
Qed.

Lemma id_after_dels d :
  dict_get "id" (dict_del "proxy_password" (dict_del "proxy_user" (dict_del "wallet_port" d)))
  = dict_get "id" d.
Proof. by rewrite !dict_get_del_ne by done. Qed.

Lemma id_after_pops d : dict_get "id" (pop_fields d).2 = dict_get "id" d.
Proof. rewrite pop_fields_spec. apply id_after_dels. Qed.

(** Reading [c['id']] once the [pop]s are done. *)
Ltac read_id Hid :=
  unfold dict_getitem; rewrite ?id_after_pops, ?id_after_dels, Hid; simpl.

Lemma json_rpc_call_dict d method params :
  method_and_params (JDict d) = Return (method, params) →
  json_rpc_call E nodes (JDict d) =
    ((try_body E nodes (pop_fields d).2 (envelope_port d) method params).1,
     handlers E (pop_fields d).2 (envelope_port d)
       (try_body E nodes (pop_fields d).2 (envelope_port d) method params).2).
Proof.
  intros Hmp. unfold json_rpc_call. rewrite Hmp, pop_fields_spec. simpl.
  by destruct (try_body _ _ _ _ _ _).
Qed.

Lemma try_body_found c port method params node :
  find_local_node (repr_container E) nodes port = Return node →
  try_body E nodes c port method params =
    ((dispatch E node port method params).1,
     result ← (dispatch E node port method params).2;
     id ← dict_getitem "id" c; set_id result id).
Proof.
  intros Hfind. unfold try_body. rewrite Hfind.
  by destruct (dispatch _ _ _ _ _).
Qed.

Lemma try_body_not_found c port method params :
  Forall (λ n, local_node_matches port n = false) nodes →
  try_body E nodes c port method params =
    ([], Raise (Exn ValueError ("Node not found: localhost:" +:+ format (repr_container E) port))).
Proof.
  intros Hnone. unfold try_body.
  destruct (find_local_node _ _ _) as [node|e] eqn:Hfind.
  - apply find_local_node_Return in Hfind as (before & after & -> & _ & Hm).
    apply Forall_app in Hnone as [_ [? _]%Forall_cons]. congruence.
  - by apply find_local_node_Raise in Hfind as [-> _].
Qed.


Lemma dispatch_forwarded node port method params args :
  intercepted method = None → unpack params = Return args →
  dispatch E node port method params =
    ([RpcCall "localhost" port (rpc_user node) (rpc_password node) method args],
     rpc_call E "localhost" port (rpc_user node) (rpc_password node) method args).
Proof. intros Hm Hargs. unfold dispatch. by rewrite Hm, Hargs. Qed.


(** The calls of the gateway are those of [dispatch] on the node found:
    at most one, and a forwarded one carries the node's own credentials. *)
Lemma json_rpc_call_calls (c : json) (k : call) :
  k ∈ (json_rpc_call E nodes c).1 →
  ∃ d node method params args,
    c = JDict d
    ∧ method_and_params c = Return (method, params)
    ∧ find_local_node (repr_container E) nodes (envelope_port d) = Return node
    ∧ unpack params = Return args
    ∧ (json_rpc_call E nodes c).1 = [k]
    ∧ match intercepted method with
      | Some m => k = NodeCall node m args
      | None => k = RpcCall "localhost" (envelope_port d)
                      (rpc_user node) (rpc_password node) method args
      end.
Proof.
  unfold json_rpc_call.
  destruct (method_and_params c) as [[method params]|e] eqn:Hmp; [|set_solver].
  destruct c as [| | | | |d]; try set_solver.
  rewrite pop_fields_spec. simpl. unfold try_body.
  destruct (find_local_node _ _ _) as [node|e] eqn:Hfind; [|set_solver].
  unfold dispatch.
  destruct (unpack params) as [args|e] eqn:Hargs;
    destruct (intercepted method) as [m|] eqn:Hm; simpl;
    try destruct (node_method E node m) as [implementation|e']; simpl;
    try set_solver.
  - intros ->%list_elem_of_singleton. exists d, node, method, params, args.
    by rewrite Hm.
  - intros ->%list_elem_of_singleton. exists d, node, method, params, args.
    by rewrite Hm.
Qed.

Lemma handlers_Return c port tried r :
  handlers E c port tried = Return r →
  tried = Return r ∨ ∃ id msg, dict_get "id" c = Some id ∧ r = error_envelope id msg.
Proof.
  unfold handlers, dict_getitem. destruct tried as [result|e]; [intros [= ->]; by left|].
  destruct (caught_by e ValueError), (caught_by e RPCError),
    (dict_get "id" c) as [id|]; simpl; try done; intros [= <-]; right; eauto.
Qed.

Lemma set_id_Return c (called : outcome json) r :
  (result ← called; id ← dict_getitem "id" c; set_id result id) = Return r →
  ∃ body id, called = Return (JDict body) ∧ dict_get "id" c = Some id
    ∧ r = JDict (dict_set "id" id body).
Proof.
  unfold dict_getitem. destruct called as [result|e]; simpl; [|done].
  destruct (dict_get "id" c) as [id|]; simpl; [|done].
  destruct result as [| | | | |body]; simpl; try done.
  intros [= <-]. by exists body, id.
Qed.

(** Every response the gateway returns is an error envelope, the wrapped
    result of an intercepted call, or the raw answer of the forwarded call
    with its id overwritten; all three carry the id of the request. *)
Lemma json_rpc_call_Return (c : json) calls r :
  json_rpc_call E nodes c = (calls, Return r) →
  ∃ d id, c = JDict d ∧ dict_get "id" d = Some id
    ∧ ((∃ msg, r = error_envelope id msg)
       ∨ (∃ v, r = JDict [("result", v); ("id", id)])
       ∨ (∃ node method args resp,
            rpc_call E "localhost" (envelope_port d) (rpc_user node) (rpc_password node)
              method args = Return (JDict resp)
            ∧ r = JDict (dict_set "id" id resp))).
Proof.
  unfold json_rpc_call.
  destruct (method_and_params c) as [[method params]|e] eqn:Hmp; [|done].
  destruct c as [| | | | |d]; try done.
  rewrite pop_fields_spec. simpl.
  set (c3 := dict_del _ _).
  assert (Hid : dict_get "id" c3 = dict_get "id" d).
  { unfold c3. by rewrite !dict_get_del_ne by done. }
  clearbody c3.
  destruct (try_body _ _ _ _ _ _) as [calls' tried] eqn:Htb.
  intros [= _ [->|(id & msg & Hc3 & ->)]%handlers_Return].
  - unfold try_body in Htb.
    destruct (find_local_node _ _ _) as [node|e]; [|done].
    destruct (dispatch _ _ _ _ _) as [calls'' called] eqn:Hd.
    injection Htb as _ (body & id & -> & Hc3 & ->)%set_id_Return.
    exists d, id. split_and!; [done|congruence|]. right.
    unfold dispatch in Hd.
    destruct (intercepted method) as [m|];
      [|destruct (unpack params) as [args|e]; simplify_eq/=].
    + left. destruct (node_method E node m) as [implementation|e];
        [destruct (unpack params) as [args|e]|]; simplify_eq/=.
      destruct (implementation args) as [v|e]; simplify_eq/=. by exists v.
    + right. by exists node, method, args, body.
  - exists d, id. split_and!; [done|congruence|]. left. by exists msg.
Qed.


(** The gateway on an envelope whose port matches no local node. *)
Lemma json_rpc_call_not_found d id method params :
  dict_get "id" d = Some id →
  method_and_params (JDict d) = Return (method, params) →
  Forall (λ n, local_node_matches (envelope_port d) n = false) nodes →
  json_rpc_call E nodes (JDict d) =
    ([], Return (error_envelope id (not_found_message E (envelope_port d)))).
Proof.
  intros Hid Hmp Hnone.
  rewrite (json_rpc_call_dict _ _ _ Hmp), (try_body_not_found _ _ _ _ Hnone). simpl.
  by read_id Hid.
Qed.

(** The gateway on a call whose dispatch raises [core.RPCError]. *)
Lemma json_rpc_call_rpc_error d id method params node e :
  dict_get "id" d = Some id →
  method_and_params (JDict d) = Return (method, params) →
  find_local_node (repr_container E) nodes (envelope_port d) = Return node →
  (dispatch E node (envelope_port d) method params).2 = Raise e →
  exn_cls e = RPCError →
  json_rpc_call E nodes (JDict d) =
    ((dispatch E node (envelope_port d) method params).1,
     Return (error_envelope id (exn_msg e))).
Proof.
  intros Hid Hmp Hfind Hraise Hcls.
  rewrite (json_rpc_call_dict _ _ _ Hmp), (try_body_found _ _ _ _ _ Hfind). simpl.
  rewrite Hraise. simpl. unfold caught_by. rewrite Hcls. simpl.
  by read_id Hid.
Qed.

(** The gateway on a forwarded call that the wallet answers. *)
Lemma json_rpc_call_forwarded d id method params args node resp :
  dict_get "id" d = Some id →
  method_and_params (JDict d) = Return (method, params) →
  find_local_node (repr_container E) nodes (envelope_port d) = Return node →
  intercepted method = None →
  unpack params = Return args →
  rpc_call E "localhost" (envelope_port d) (rpc_user node) (rpc_password node)
    method args = Return (JDict resp) →
  json_rpc_call E nodes (JDict d) =
    ([RpcCall "localhost" (envelope_port d) (rpc_user node) (rpc_password node)
        method args],
     Return (JDict (dict_set "id" id resp))).
Proof.
  intros Hid Hmp Hfind Hm Hargs Hcall.
  rewrite (json_rpc_call_dict _ _ _ Hmp), (try_body_found _ _ _ _ _ Hfind).
  rewrite (dispatch_forwarded _ _ _ _ _ Hm Hargs). simpl. rewrite Hcall. simpl.
  by read_id Hid.
Qed.

(** C2. For an envelope that contains an id, every response the gateway
    returns is an object whose [id] is that very value.  On the success
    path of a forwarded call the answer of the wallet is returned with its
    [id] member, if it has one, overwritten by the request id and its other
    members untouched; when no local node is on the port, and when the call
    raises [core.RPCError], the error envelope returned carries the request
    id. *)
Theorem response_carries_request_id d id :
  dict_get "id" d = Some id →
  (∀ calls r, json_rpc_call E nodes (JDict d) = (calls, Return r) →
     ∃ body, r = JDict body ∧ dict_get "id" body = Some id)
  ∧ (∀ method params args node resp,
       method_and_params (JDict d) = Return (method, params) →
       find_local_node (repr_container E) nodes (envelope_port d) = Return node →
       intercepted method = None →
       unpack params = Return args →
       rpc_call E "localhost" (envelope_port d) (rpc_user node) (rpc_password node)
         method args = Return (JDict resp) →
       (json_rpc_call E nodes (JDict d)).2 = Return (JDict (dict_set "id" id resp))
       ∧ dict_get "id" (dict_set "id" id resp) = Some id
       ∧ ∀ k, k ≠ "id" → dict_get k (dict_set "id" id resp) = dict_get k resp)
  ∧ (∀ method params,
       method_and_params (JDict d) = Return (method, params) →
       Forall (λ n, local_node_matches (envelope_port d) n = false) nodes →
       ∃ msg, (json_rpc_call E nodes (JDict d)).2 = Return (error_envelope id msg)
              ∧ dict_get "id" [("id", id); ("error", JDict [("message", JStr msg)])]
                = Some id)
  ∧ (∀ method params node e,
       method_and_params (JDict d) = Return (method, params) →
       find_local_node (repr_container E) nodes (envelope_port d) = Return node →
       (dispatch E node (envelope_port d) method params).2 = Raise e →
       exn_cls e = RPCError →
       (json_rpc_call E nodes (JDict d)).2 = Return (error_envelope id (exn_msg e))).
Proof.
  intros Hid. split_and!.
  - intros calls r (d' & id' & [= <-] & Hid' & Hr)%json_rpc_call_Return.
    assert (id' = id) as -> by congruence.
    destruct Hr as [[msg ->]|[[v ->]|(node & method & args & resp & _ & ->)]].
    + by eexists.
    + by eexists.
    + eexists. split; [done|]. apply dict_get_set_eq.
  - intros method params args node resp Hmp Hfind Hm Hargs Hcall.
    rewrite (json_rpc_call_forwarded _ _ _ _ _ _ _ Hid Hmp Hfind Hm Hargs Hcall).
    split_and!; [done|apply dict_get_set_eq|].
    intros k Hk. by apply dict_get_set_ne.
  - intros method params Hmp Hnone.
    rewrite (json_rpc_call_not_found _ _ _ _ Hid Hmp Hnone). by eexists.
  - intros method params node e Hmp Hfind Hraise Hcls.
    by rewrite (json_rpc_call_rpc_error _ _ _ _ _ _ Hid Hmp Hfind Hraise Hcls).
Qed.

(** C3, as the code has it.  For an envelope with an id and with the method
    and the arguments in [params], where the gateway reads them before
    anything else: when no registered node is on localhost with the port of
    the envelope, the gateway makes no call and returns the envelope
    [{id, error: {message: "Could not find active node on port <port>"}}];
    an envelope without [wallet_port] is such an envelope, its port is
    [None].  When the port resolves and the forwarded call raises
    [core.RPCError], the gateway returns [{id, error: {message: str(e)}}].
    In both cases the gateway returns: no exception leaves it. *)
Theorem failures_returned_as_envelopes d id method params :
  dict_get "id" d = Some id →
  method_and_params (JDict d) = Return (method, params) →
  (Forall (λ n, ¬ (is_localhost n = true ∧ int_eq (rpc_port n) (envelope_port d) = true))
     nodes →
   json_rpc_call E nodes (JDict d) =
     ([], Return (JDict [("id", id);
                         ("error", JDict [("message",
                            JStr ("Could not find active node on port "
                                  +:+ format (repr_container E) (envelope_port d)))])])))
  ∧ (dict_get "wallet_port" d = None →
     envelope_port d = JNull
     ∧ json_rpc_call E nodes (JDict d) =
         ([], Return (JDict [("id", id);
                             ("error", JDict [("message",
                                JStr "Could not find active node on port None")])])))
  ∧ (∀ node args e,
       find_local_node (repr_container E) nodes (envelope_port d) = Return node →
       intercepted method = None →
       unpack params = Return args →
       rpc_call E "localhost" (envelope_port d) (rpc_user node) (rpc_password node)
         method args = Raise e →
       exn_cls e = RPCError →
       json_rpc_call E nodes (JDict d) =
         ([RpcCall "localhost" (envelope_port d) (rpc_user node) (rpc_password node)
             method args],
          Return (JDict [("id", id); ("error", JDict [("message", JStr (exn_msg e))])]))).
Proof.
  intros Hid Hmp. split_and!.
  - intros Hnone. apply (json_rpc_call_not_found _ _ _ _ Hid Hmp).
    eapply Forall_impl; [exact Hnone|]. intros n Hn. simpl in Hn.
    rewrite <-local_node_matches_iff in Hn. by destruct (local_node_matches _ n).
  - intros Hport. assert (Hnull : envelope_port d = JNull).
    { unfold envelope_port. by rewrite Hport. }
    split; [done|].
    rewrite (json_rpc_call_not_found _ _ _ _ Hid Hmp).
    + unfold not_found_message. by rewrite Hnull.
    + rewrite Hnull. apply Forall_forall. intros n _.
      unfold local_node_matches. simpl. apply andb_false_r.
  - intros node args e Hfind Hm Hargs Hcall Hcls.
    pose proof (dispatch_forwarded node (envelope_port d) _ _ _ Hm Hargs) as Hd.
    rewrite (json_rpc_call_rpc_error _ _ _ _ node e Hid Hmp Hfind);
      rewrite ?Hd; done.
Qed.

(** C4. The envelope the gateway works with once the three [pop]s are
    done has neither [proxy_user] nor [proxy_password]; a forwarded call
    is made with the [rpc_user] and [rpc_password] stored in the node the
    port resolved to; a [proxy_user] or [proxy_password] member of a
    response can only be one the wallet's own answer has.  Hence two
    envelopes that differ in nothing but these two fields lead to the same
    calls and the same response or exception. *)
Theorem credentials_never_used d1 d2 :
  strip_credentials d1 = strip_credentials d2 →
  (dict_get "proxy_user" (pop_fields d1).2 = None
   ∧ dict_get "proxy_password" (pop_fields d1).2 = None)
  ∧ (∀ host port user password method args,
       RpcCall host port user password method args ∈ (json_rpc_call E nodes (JDict d1)).1 →
       ∃ node, find_local_node (repr_container E) nodes (envelope_port d1) = Return node
         ∧ user = rpc_user node ∧ password = rpc_password node)
  ∧ (∀ calls body k v,
       json_rpc_call E nodes (JDict d1) = (calls, Return (JDict body)) →
       k = "proxy_user" ∨ k = "proxy_password" →
       dict_get k body = Some v →
       ∃ node method args resp,
         rpc_call E "localhost" (envelope_port d1) (rpc_user node) (rpc_password node)
           method args = Return (JDict resp)
         ∧ dict_get k resp = Some v)
  ∧ json_rpc_call E nodes (JDict d1) = json_rpc_call E nodes (JDict d2).
Proof.
  intros Hsame. split_and!.
  - rewrite pop_fields_spec. simpl.
    rewrite dict_get_del_ne by done. apply dict_get_del_eq.
  - rewrite pop_fields_spec. apply dict_get_del_eq.
  - intros host port user password method args Hin.
    apply json_rpc_call_calls in Hin
      as (d & node & method' & params & args' & [= <-] & _ & Hfind & _ & _ & Hk).
    exists node. split; [done|].
    destruct (intercepted method'); by simplify_eq.
  - intros calls body k v (d & id & [= <-] & _ & Hr)%json_rpc_call_Return Hk Hv.
    destruct Hr as [[msg [= ->]]|[[v' [= ->]]|(node & method & args & resp & Hcall & [= ->])]].
    + destruct Hk as [-> | ->]; done.
    + destruct Hk as [-> | ->]; done.
    + exists node, method, args, resp. split; [done|].
      rewrite dict_get_set_ne in Hv; [done|]. destruct Hk as [-> | ->]; done.
  - assert (Hget : ∀ k, k ≠ "proxy_user" → k ≠ "proxy_password" →
              dict_get k d1 = dict_get k d2).
    { intros k ? ?.
      rewrite <-(dict_get_del_ne k "proxy_user" d1), <-(dict_get_del_ne k "proxy_user" d2),
        <-(dict_get_del_ne k "proxy_password" (dict_del _ d1)),
        <-(dict_get_del_ne k "proxy_password" (dict_del _ d2)) by done.
      unfold strip_credentials in Hsame. by rewrite Hsame. }
    assert (Hleft : (pop_fields d1).2 = (pop_fields d2).2).
    { rewrite !pop_fields_spec. simpl.
      rewrite !(dict_del_comm _ "wallet_port").
      unfold strip_credentials in Hsame. by rewrite Hsame. }
    assert (Hport : envelope_port d1 = envelope_port d2).
    { unfold envelope_port. by rewrite Hget. }
    assert (Hmp : method_and_params (JDict d1) = method_and_params (JDict d2)).
    { unfold method_and_params, getitem_str, dict_getitem. by rewrite Hget. }
    unfold json_rpc_call. rewrite Hmp.
    destruct (method_and_params (JDict d2)) as [[method params]|e]; [|done].
    destruct (pop_fields d1) as [[[port1 u1] p1] c1] eqn:H1.
    destruct (pop_fields d2) as [[[port2 u2] p2] c2] eqn:H2.
    rewrite pop_fields_spec in H1, H2. simplify_eq/=. by rewrite Hport.
Qed.
End gateway_facts.

(** ** The probe of one endpoint *)

Section probe_facts.
Variable E : Prober.env.
Implicit Types (seed host port : string) (p : Z) (s : socket) (e : exn).

(** The socket as [check_seed_status] sets it up. *)
Lemma check_seed_status_timeout seed s o :
  check_seed_status E seed = (Some s, o) → sock_timeout s = Some 3%Z.
Proof.
  unfold check_seed_status. intros Hc.
  repeat (case_match; simplify_eq/=); done.
Qed.

(** The three statuses are the only values returned. *)
Lemma check_seed_status_values seed status :
  (check_seed_status E seed).2 = Return status →
  status ∈ ["offline"; "stuck"; "online"].
Proof.
  unfold check_seed_status. intros Hc.
  repeat (case_match; simplify_eq/=); set_solver.
Qed.

(** [s.close()] is reached on the last line only. *)
Lemma closed_iff_online seed s status :
  check_seed_status E seed = (Some s, Return status) →
  sock_closed s = true ↔ status = "online".
Proof.
  unfold check_seed_status. intros Hc.
  repeat (case_match; simplify_eq/=); done.
Qed.

(** What [check_seed_status] does with a seed split into host and port:
    the endpoint is classified offline when [connect], under the 3-second
    timeout, raises a [ConnectionError] (refused, reset) or
    [socket.timeout], and any other exception of [connect] leaves
    [check_seed_status] unclassified; stuck when the connection is made
    and the read of at most 256 bytes times out; online when the
    connection is made and the read returns, with or without bytes.  So a
    listener that refuses the connection is offline, one that accepts and
    stays silent is stuck, one that accepts and sends bytes is online, and
    so is one that accepts and closes at once. *)
Theorem check_seed_status_classifies seed host port p :
  split_on ":" seed = [host; port] →
  py_int E port = Return p →
  (∀ e, sock_connect E (Some 3%Z) host p = Some e →
     (caught_by e ConnectionError || caught_by e SocketTimeout = true →
      (check_seed_status E seed).2 = Return "offline")
     ∧ (exn_cls e = ConnectionRefusedError →
        (check_seed_status E seed).2 = Return "offline")
     ∧ (caught_by e ConnectionError || caught_by e SocketTimeout = false →
        (check_seed_status E seed).2 = Raise e))
  ∧ (sock_connect E (Some 3%Z) host p = None →
     (∀ e, sock_recv E (Some 3%Z) host p 256 = Raise e →
        (caught_by e SocketTimeout = true →
         (check_seed_status E seed).2 = Return "stuck")
        ∧ (caught_by e SocketTimeout = false →
           (check_seed_status E seed).2 = Raise e))
     ∧ (∀ bytes, sock_recv E (Some 3%Z) host p 256 = Return bytes →
          (check_seed_status E seed).2 = Return "online")).
Proof.
  intros Hsplit Hint. unfold check_seed_status. rewrite Hsplit, Hint. simpl.
  split.
  - intros e ->. split_and!.
    + by intros ->.
    + intros Hcls. unfold caught_by. by rewrite Hcls.
    + by intros ->.
  - intros ->. split.
    + intros e ->. split; by intros ->.
    + by intros bytes ->.
Qed.
End probe_facts.

(** C9, at the endpoints of the fixtures.  The probe of a peer that accepts
    and stays silent returns stuck with the connection made and the socket
    not closed, the probe of a peer that refuses returns offline with the
    socket not closed; the socket is closed for the peer that greets, the
    only one reported online. *)
Theorem socket_left_open :
  check_seed_status Fixtures.silent "seed.example.org:1776" =
    (Some {| sock_timeout := Some 3%Z; sock_connected := true; sock_closed := false |},
     Return "stuck")
  ∧ check_seed_status Fixtures.refusing "seed.example.org:1776" =
      (Some {| sock_timeout := Some 3%Z; sock_connected := false; sock_closed := false |},
       Return "offline")
  ∧ check_seed_status Fixtures.greeting "seed.example.org:1776" =
      (Some {| sock_timeout := Some 3%Z; sock_connected := false; sock_closed := true |},
       Return "online").
Proof. by vm_compute. Qed.

(** ** The batch of probes *)

Section batch_facts.
Implicit Types (w : world) (seeds : list string) (seed status : string).
Implicit Types (ws : list (N * (string * string))) (m : gmap string string).
Implicit Types (T f now : N) (i j : nat).

Lemma assignments_other ws m seed :
  (∀ fw, fw ∈ ws → fw.2.1 ≠ seed) → foldl assign m ws !! seed = m !! seed.
Proof.
  revert m. induction ws as [|fw ws IH]; intros m Hws; simpl; [done|].
  rewrite IH by (intros ??; apply Hws; by right).
  unfold assign. apply lookup_insert_ne, Hws. by left.
Qed.

Lemma assignments_agree ws m seed status :
  (∀ fw, fw ∈ ws → fw.2.1 = seed → fw.2.2 = status) →
  (∃ fw, fw ∈ ws ∧ fw.2.1 = seed) ∨ m !! seed = Some status →
  foldl assign m ws !! seed = Some status.
Proof.
  revert m. induction ws as [|fw ws IH]; intros m Hall Hsome; simpl.
  - destruct Hsome as [(? & []%elem_of_nil & _)|?]; done.
  - apply IH; [intros ???; apply Hall; [by right|done]|]. unfold assign.
    destruct (decide (fw.2.1 = seed)) as [Heq|Hne].
    + right. rewrite <-Heq, lookup_insert_eq. f_equal. apply Hall; [by left|done].
    + destruct Hsome as [(fw' & [->|?]%elem_of_cons & ?)|?]; [done|left; eauto|].
      right. by rewrite lookup_insert_ne.
Qed.

Lemma assignments_origin ws m seed status :
  foldl assign m ws !! seed = Some status →
  (∃ fw, fw ∈ ws ∧ fw.2 = (seed, status)) ∨ m !! seed = Some status.
Proof.
  revert m. induction ws as [|fw ws IH]; intros m; simpl; [by right|].
  intros [(fw' & ? & ?)|Hm]%IH.
  - left. exists fw'. split; [by right|done].
  - unfold assign in Hm. destruct (decide (fw.2.1 = seed)) as [Heq|Hne].
    + rewrite <-Heq, lookup_insert_eq in Hm. left. exists fw. split; [by left|].
      destruct fw as [? [??]]. by simplify_eq/=.
    + right. by rewrite lookup_insert_ne in Hm.
Qed.

Lemma seed_status_after_None ws seed :
  (∀ fw, fw ∈ ws → fw.2.1 ≠ seed) → seed_status_after ws !! seed = None.
Proof.
  intros Hws. unfold seed_status_after. rewrite assignments_other; [done|].
  intros fw Hfw. apply Hws. by rewrite <-(merge_sort_Permutation earlier ws).
Qed.

Lemma seed_status_after_agree ws seed status :
  (∀ fw, fw ∈ ws → fw.2.1 = seed → fw.2.2 = status) →
  (∃ fw, fw ∈ ws ∧ fw.2.1 = seed) →
  seed_status_after ws !! seed = Some status.
Proof.
  intros Hall (fw & Hfw & Hseed). unfold seed_status_after.
  apply assignments_agree.
  - intros fw' Hfw'. apply Hall. by rewrite <-(merge_sort_Permutation earlier ws).
  - left. exists fw. by rewrite (merge_sort_Permutation earlier ws).
Qed.

Lemma seed_status_after_origin ws seed status :
  seed_status_after ws !! seed = Some status → ∃ fw, fw ∈ ws ∧ fw.2 = (seed, status).
Proof.
  unfold seed_status_after. intros [(fw & Hfw & ?)|?]%assignments_origin; [|done].
  exists fw. by rewrite <-(merge_sort_Permutation earlier ws).
Qed.

Lemma write_of_Some w i seed t seed' status :
  write_of w i seed = Some (t, (seed', status)) ↔
  seed' = seed ∧ stored w i = Some t
  ∧ (check_seed_status (probe_env w i) seed).2 = Return status.
Proof.
  unfold write_of.
  destruct (stored w i) as [t'|], (check_seed_status _ _).2 as [status'|e];
    naive_solver.
Qed.

Lemma elem_of_writes_until w T seeds fw :
  fw ∈ writes_until w T seeds ↔
  (fw.1 ≤ T)%N ∧ ∃ i seed, seeds !! i = Some seed ∧ write_of w i seed = Some fw.
Proof.
  unfold writes_until.
  rewrite list_elem_of_filter, list_elem_of_omap.
  setoid_rewrite elem_of_lookup_imap. naive_solver.
Qed.

(** *** Waiting *)

Lemma join_ge now fin : (now ≤ join now fin)%N.
Proof. unfold join. destruct fin as [f|]; [destruct (N.leb_spec f now)|]; lia. Qed.

Lemma join_called_S w i :
  join_called w (S i) = join (join_called w i) (finish w i).
Proof. unfold join_called, join_all. by rewrite seq_S, fmap_app, foldl_app. Qed.

Lemma join_called_mono w i j : (i ≤ j)%nat → (join_called w i ≤ join_called w j)%N.
Proof.
  induction 1 as [|j _ IH]; [done|].
  rewrite join_called_S. etrans; [exact IH|apply join_ge].
Qed.

(** A thread that ends within the five seconds of its own [join] has ended
    when that [join] returns. *)
Lemma joined_in_time w i :
  is_alive_after_join w i = false →
  ∃ f, finish w i = Some f ∧ (f ≤ join_called w (S i))%N.
Proof.
  unfold is_alive_after_join. rewrite join_called_S. unfold join.
  destruct (finish w i) as [f|]; [|done].
  intros Hf%N.ltb_ge. exists f. split; [done|].
  destruct (N.leb_spec f (join_called w i)); lia.
Qed.

(** The loop waits five seconds per thread at most. *)
Lemma join_called_bound w i :
  (join_called w i ≤ join_start w + join_timeout * N.of_nat i)%N.
Proof.
  induction i as [|i IH]; [unfold join_called; simpl; lia|].
  rewrite join_called_S. unfold join.
  destruct (finish w i) as [f|]; [destruct (N.leb_spec f (join_called w i))|]; lia.
Qed.

(** *** The rows *)

Lemma seed_rows_lookup w seeds i :
  seed_rows w seeds !! i =
    (λ seed, row (seed_status_at w seeds (lookup_at w i 0))
                 (seed_status_at w seeds (lookup_at w i 1))
                 (seed_status_at w seeds (lookup_at w i 2)) seed) <$> seeds !! i.
Proof. unfold seed_rows. by rewrite list_lookup_imap. Qed.

Lemma row_fst m1 m2 m3 seed : (row m1 m2 m3 seed).1 = seed.
Proof. unfold row. by repeat case_decide. Qed.

Lemma row_None m1 m2 m3 seed :
  m1 !! seed = None → m2 !! seed = None → m3 !! seed = None →
  row m1 m2 m3 seed = (seed, div "btn-danger" "offline").
Proof. intros H1 H2 H3. unfold row. rewrite H1, H2, H3. by repeat case_decide. Qed.

Lemma row_Some m1 m2 m3 seed status :
  m1 !! seed = Some status → m2 !! seed = Some status → m3 !! seed = Some status →
  row m1 m2 m3 seed = settled seed status.
Proof.
  intros H1 H2 H3. unfold settled, row.
  by rewrite H1, H2, H3, lookup_singleton_eq.
Qed.

(** No probe of [seed] has stored a status by [T]. *)
Lemma unresolved_None w T seeds seed :
  (∀ j t status, seeds !! j = Some seed →
     write_of w j seed = Some (t, (seed, status)) → (T < t)%N) →
  seed_status_at w seeds T !! seed = None.
Proof.
  intros Hlate. apply seed_status_after_None.
  intros [t [seed' status]] (Ht & j & seed'' & Hj & Hw)%elem_of_writes_until.
  simpl in *. intros ->. pose proof Hw as (-> & _)%write_of_Some.
  specialize (Hlate _ _ _ Hj Hw). lia.
Qed.

#[local] Instance earlier_total : Total earlier.
Proof. intros a b. unfold earlier. lia. Qed.

#[local] Instance earlier_transitive : Transitive earlier.
Proof. intros a b c. unfold earlier. lia. Qed.

Lemma assignments_last ws1 fw ws2 (m : gmap string string) :
  (∀ fw', fw' ∈ ws2 → fw'.2.1 = fw.2.1 → fw'.2.2 = fw.2.2) →
  foldl assign m (ws1 ++ fw :: ws2) !! fw.2.1 = Some fw.2.2.
Proof.
  intros Hafter. rewrite foldl_app. simpl.
  apply assignments_agree; [done|]. right. unfold assign. apply lookup_insert_eq.
Qed.

(** A look-up at [T] finds the status that was stored last by then. *)
Lemma latest_write w T seeds j seed t status :
  seeds !! j = Some seed →
  stored w j = Some t →
  (check_seed_status (probe_env w j) seed).2 = Return status →
  (t ≤ T)%N →
  (∀ j' t' status', j' ≠ j → seeds !! j' = Some seed → stored w j' = Some t' →
     (check_seed_status (probe_env w j') seed).2 = Return status' →
     (t' < t ∨ T < t')%N) →
  seed_status_at w seeds T !! seed = Some status.
Proof.
  intros Hj Ht HtT Hcheck Hothers.
  assert (Hin : (t, (seed, status)) ∈ merge_sort earlier (writes_until w T seeds)).
  { rewrite merge_sort_Permutation. apply elem_of_writes_until. split; [done|].
    exists j, seed. split; [done|]. by apply write_of_Some. }
  pose proof (StronglySorted_merge_sort earlier (writes_until w T seeds)) as Hsorted.
  unfold seed_status_at, seed_status_after.
  apply list_elem_of_split in Hin as (ws1 & ws2 & Heq). rewrite Heq in Hsorted |- *.
  apply (assignments_last ws1 (t, (seed, status)) ws2).
  intros [t' [seed' status']] Hin'. simpl. intros ->.
  assert (Hle : earlier (t, (seed, status)) (t', (seed, status'))).
  { apply (StronglySorted_app_1_elem_of earlier (ws1 ++ [(t, (seed, status))]) ws2).
    - by rewrite <-(assoc_L (++)).
    - set_solver.
    - done. }
  unfold earlier in Hle. simpl in Hle.
  assert (Hws : (t', (seed, status')) ∈ writes_until w T seeds).
  { rewrite <-(merge_sort_Permutation earlier), Heq. set_solver. }
  apply elem_of_writes_until in Hws as (Ht'T & j' & seed'' & Hj' & Hw). simpl in Ht'T.
  pose proof Hw as (<- & Ht' & Hcheck')%write_of_Some.
  destruct (decide (j' = j)) as [->|Hne]; [congruence|].
  destruct (Hothers j' t' status' Hne Hj' Ht' Hcheck'); lia.
Qed.

(** A status found by whatever look-up was stored by a probe of the
    endpoint no later than the look-up. *)
Lemma seed_status_at_origin w T seeds seed status :
  seed_status_at w seeds T !! seed = Some status →
  ∃ j t, seeds !! j = Some seed ∧ stored w j = Some t ∧ (t ≤ T)%N
    ∧ (check_seed_status (probe_env w j) seed).2 = Return status.
Proof.
  intros ([t [seed' status']] & (Ht & j & seed'' & Hj & Hw)%elem_of_writes_until
          & [= -> ->])%seed_status_after_origin.
  pose proof Hw as (-> & Hstored & Hcheck)%write_of_Some.
  by exists j, t.
Qed.

(** The item of an endpoint whose last status was stored before the item
    is built. *)
Lemma seed_rows_settled w seeds i j seed t status :
  seeds !! i = Some seed →
  seeds !! j = Some seed →
  stored w j = Some t →
  (check_seed_status (probe_env w j) seed).2 = Return status →
  (∀ k, k < 3 → (t ≤ lookup_at w i k)%N) →
  (∀ j' t' status', j' ≠ j → seeds !! j' = Some seed → stored w j' = Some t' →
     (check_seed_status (probe_env w j') seed).2 = Return status' → (t' < t)%N) →
  seed_rows w seeds !! i = Some (settled seed status).
Proof.
  intros Hi Hj Ht Hcheck Hseen Hothers. rewrite seed_rows_lookup, Hi. simpl. f_equal.
  apply row_Some; (eapply latest_write; [done..|apply Hseen; lia|]);
    intros; left; eauto.
Qed.

(** The item of an endpoint none of whose probes has stored a status when
    the item is built. *)
Lemma seed_rows_unresolved w seeds i seed :
  seeds !! i = Some seed →
  (∀ j t status k, seeds !! j = Some seed → stored w j = Some t →
     (check_seed_status (probe_env w j) seed).2 = Return status →
     k < 3 → (lookup_at w i k < t)%N) →
  seed_rows w seeds !! i = Some (seed, div "btn-danger" "offline").
Proof.
  intros Hi Hlate. rewrite seed_rows_lookup, Hi. simpl. f_equal.
  apply row_None; apply unresolved_None;
    intros j t status Hj (_ & Ht & Hcheck)%write_of_Some; eapply Hlate; eauto.
Qed.

Lemma lookups_in_order w seeds i t k :
  program_order w seeds → (t ≤ lookup_at w i 0)%N → k < 3 → (t ≤ lookup_at w i k)%N.
Proof.
  intros (_ & _ & _ & Hrow) Ht Hk. destruct (Hrow i) as (H01 & H12 & _).
  destruct k as [|[|[|k]]]; lia.
Qed.

Lemma lookups_before_last w seeds i t k :
  program_order w seeds → (lookup_at w i 2 < t)%N → k < 3 → (lookup_at w i k < t)%N.
Proof.
  intros (_ & _ & _ & Hrow) Ht Hk. destruct (Hrow i) as (H01 & H12 & _).
  destruct k as [|[|[|k]]]; lia.
Qed.

(** A thread that has ended when the loop over the threads ends has stored
    its status, if it found one, before any item is built. *)
Lemma ended_stored w seeds i seed f status k :
  program_order w seeds →
  seeds !! i = Some seed →
  finish w i = Some f →
  (f ≤ join_called w (length seeds))%N →
  (check_seed_status (probe_env w i) seed).2 = Return status →
  k < 3 →
  ∃ t, stored w i = Some t ∧ (t ≤ lookup_at w i k)%N.
Proof.
  intros Horder Hi Hf HfT Hcheck Hk.
  pose proof Horder as (Hbefore & Hstored & Hjoin & _).
  destruct (Hstored i seed f status Hi Hf Hcheck) as [t Ht].
  exists t. split; [done|]. apply (lookups_in_order w seeds); [done| |done].
  specialize (Hbefore i t f Ht Hf). specialize (Hjoin i). lia.
Qed.

Lemma dropped_writes_ext {A} (P : A → Prop) `{!∀ x, Decision (P x)}
    (g g' : nat → string → option A) seeds :
  (∀ j seed, seeds !! j = Some seed →
     g j seed = g' j seed
     ∨ (∀ a, g j seed = Some a → ¬ P a) ∧ (∀ a, g' j seed = Some a → ¬ P a)) →
  filter P (omap id (imap g seeds)) = filter P (omap id (imap g' seeds)).
Proof.
  revert g g'. induction seeds as [|seed seeds IH]; intros g g' Hext; [done|].
  specialize (IH (g ∘ S) (g' ∘ S) (λ j, Hext (S j))).
  destruct (Hext 0 seed eq_refl) as [Heq|[Hg Hg']]; clear Hext; simpl in *.
  - rewrite Heq. destruct (g' 0 seed) as [a|]; simpl; [|exact IH].
    rewrite !filter_cons. case_decide; [f_equal|]; exact IH.
  - destruct (g 0 seed) as [a|] eqn:Ha, (g' 0 seed) as [a'|] eqn:Ha'; simpl;
      rewrite ?filter_cons, ?decide_False by eauto; exact IH.
Qed.

(** What a thread stores when the last item has been built, or would have
    stored had its check returned, does not reach the items. *)
Lemma seed_rows_with_probe_env w seeds i E' :
  (∀ t i' k, stored w i = Some t → i' < length seeds → k < 3 →
     (lookup_at w i' k < t)%N) →
  seed_rows (with_probe_env w i E') seeds = seed_rows w seeds.
Proof.
  intros Hlate. unfold seed_rows. apply imap_ext. intros i' seed Hi'.
  apply lookup_lt_Some in Hi'.
  assert (Hsame : ∀ k, k < 3 →
    seed_status_at (with_probe_env w i E') seeds (lookup_at w i' k)
    = seed_status_at w seeds (lookup_at w i' k)).
  { intros k Hk. unfold seed_status_at. f_equal.
    unfold writes_until. apply dropped_writes_ext.
    intros j seed' _. unfold write_of. simpl. case_decide as Hj; [subst j|by left].
    right. split; intros [t ?] Hw; simpl;
      destruct (stored w i) as [t'|]; try done;
      specialize (Hlate t' i' k eq_refl Hi' Hk);
      repeat case_match; simplify_eq/=; lia. }
  simpl. by rewrite !Hsame by lia.
Qed.

Lemma rows_fst w seeds : (seed_rows w seeds).*1 = seeds.
Proof.
  apply list_eq. intros i. rewrite list_lookup_fmap, seed_rows_lookup.
  destruct (seeds !! i) as [seed|]; [|done]. simpl. by rewrite row_fst.
Qed.

Lemma length_seed_rows w seeds : length (seed_rows w seeds) = length seeds.
Proof. unfold seed_rows. apply length_imap. Qed.

(** [split_columns] lays the items out in two columns: the first half on
    the left, the second half on the right, after padding to an even
    length. *)
Lemma split_columns_columns items attrs :
  ((λ r, (r.1.1.1, r.1.1.2)) <$> (split_columns items attrs).1)
  ++ ((λ r, (r.1.2, r.2)) <$> (split_columns items attrs).1)
  = items ++ (if decide (length items `mod` 2 = 1) then [("", "")] else []).
Proof.
  assert (Hhalves : ∀ l : list (string * string), length l `mod` 2 = 0 →
    ((λ r : string * string * string * string, (r.1.1.1, r.1.1.2)) <$>
       ((λ p, (p.1.1, p.1.2, p.2.1, p.2.2)) <$>
          zip (take (length l / 2) l) (drop (length l / 2) l)))
    ++ ((λ r : string * string * string * string, (r.1.2, r.2)) <$>
       ((λ p, (p.1.1, p.1.2, p.2.1, p.2.2)) <$>
          zip (take (length l / 2) l) (drop (length l / 2) l)))
    = l).
  { intros l Heven. pose proof (Nat.div_mod_eq (length l) 2) as Hdiv.
    rewrite <-!list_fmap_compose.
    trans (take (length l / 2) l ++ drop (length l / 2) l); [|apply take_drop].
    f_equal.
    - etrans; [apply list_fmap_ext with (g := fst); by intros ? [[??] [??]] ?|].
      apply fst_zip. rewrite length_take, length_drop. lia.
    - etrans; [apply list_fmap_ext with (g := snd); by intros ? [[??] [??]] ?|].
      apply snd_zip. rewrite length_take, length_drop. lia. }
  unfold split_columns. case_decide as Hodd; simpl.
  - replace (length items + 1) with (length (items ++ [("", "")]))
      by (rewrite List.length_app; simpl; lia).
    apply Hhalves. rewrite List.length_app.
    change (length [("", "")]) with 1.
    pose proof (Nat.div_mod_eq (length items) 2).
    pose proof (Nat.div_mod_eq (length items + 1) 2).
    pose proof (Nat.mod_upper_bound (length items + 1) 2). lia.
  - rewrite app_nil_r. apply Hhalves.
    pose proof (Nat.mod_upper_bound (length items) 2). lia.
Qed.

(** C6, as the code has it.  For every list of seed endpoints and whatever
    the probes meet, raised exceptions included, the comprehension yields
    one item per endpoint, in the order of the list, each with one of the
    three statuses: online under the button for online, stuck under the
    button for stuck, and under the button for offline whatever the last
    look-up of the item finds.  An endpoint is reported offline when none
    of its probes has stored a status by the last look-up of its item.  The
    status a probe found is reported when the probe, the only one of its
    endpoint, has stored it by the first look-up of the item, and it has
    when the thread has ended by the time the last [join] returns: so it is
    for a thread that missed the five seconds of its own [join], too.  Read
    column by column, the table handed to the template is that list of
    items, padded to an even length. *)
Theorem seed_rows_spec w seeds :
  program_order w seeds →
  (seed_rows w seeds).*1 = seeds
  ∧ length (seed_rows w seeds) = length seeds
  ∧ (∀ i seed, seeds !! i = Some seed →
       ∃ style status, seed_rows w seeds !! i = Some (seed, div style status)
         ∧ status ∈ ["online"; "stuck"; "offline"]
         ∧ (style = "btn-success" ∧ status = "online"
            ∨ style = "btn-warning" ∧ status = "stuck"
            ∨ style = "btn-danger"))
  ∧ (∀ i seed, seeds !! i = Some seed →
       (∀ j t status, seeds !! j = Some seed → stored w j = Some t →
          (check_seed_status (probe_env w j) seed).2 = Return status →
          (lookup_at w i 2 < t)%N) →
       seed_rows w seeds !! i = Some (seed, div "btn-danger" "offline"))
  ∧ (∀ i seed status, seeds !! i = Some seed →
       (∀ j, seeds !! j = Some seed → j = i) →
       (check_seed_status (probe_env w i) seed).2 = Return status →
       (∃ t, stored w i = Some t ∧ (t ≤ lookup_at w i 0)%N)
       ∨ (∃ f, finish w i = Some f ∧ (f ≤ join_called w (length seeds))%N) →
       seed_rows w seeds !! i = Some (settled seed status))
  ∧ (let table := (split_columns (seed_rows w seeds) ∅).1 in
     ((λ r, (r.1.1.1, r.1.1.2)) <$> table) ++ ((λ r, (r.1.2, r.2)) <$> table)
     = seed_rows w seeds
       ++ (if decide (length seeds `mod` 2 = 1) then [("", "")] else [])).
Proof.
  intros Horder. split_and!.
  - apply rows_fst.
  - apply length_seed_rows.
  - intros i seed Hi. rewrite seed_rows_lookup, Hi. simpl. unfold row.
    case_decide; [exists "btn-success", "online"; split_and!; [done|set_solver|by left]|].
    case_decide; [exists "btn-warning", "stuck"; split_and!; [done|set_solver|by right; left]|].
    destruct (seed_status_at w seeds (lookup_at w i 2) !! seed) as [status|] eqn:Hstatus.
    + exists "btn-danger", status. split_and!; [done| |by right; right].
      apply seed_status_at_origin in Hstatus as (j & t & _ & _ & _ & Hcheck).
      apply check_seed_status_values in Hcheck. set_solver.
    + exists "btn-danger", "offline". split_and!; [done|set_solver|by right; right].
  - intros i seed Hi Hlate. apply seed_rows_unresolved; [done|].
    intros j t status k Hj Ht Hcheck Hk.
    apply (lookups_before_last w seeds); eauto.
  - intros i seed status Hi Honce Hcheck Hdone.
    assert (∃ t, stored w i = Some t ∧ ∀ k, k < 3 → (t ≤ lookup_at w i k)%N)
      as (t & Ht & Hseen).
    { destruct Hdone as [(t & Ht & Hfirst)|(f & Hf & HfT)].
      - exists t. split; [done|]. intros k Hk. by apply (lookups_in_order w seeds).
      - destruct (ended_stored w seeds i seed f status 0 Horder Hi Hf HfT Hcheck)
          as (t & Ht & Hfirst); [lia|].
        exists t. split; [done|]. intros k Hk. by apply (lookups_in_order w seeds). }
    apply (seed_rows_settled w seeds i i seed t status); try done.
    intros j' t' status' Hne Hj'. by apply Honce in Hj'.
  - cbv zeta. rewrite split_columns_columns. by rewrite length_seed_rows.
Qed.

(** C10, as the code has it.  For an endpoint probed by the i-th thread
    only: when that thread has not stored a status by the last look-up of
    the item of the endpoint, the endpoint is reported offline; when it has
    stored none by the time the last item is built, nothing the probe finds
    later, whatever it is, changes any item; when it has stored its status
    by the first look-up of the item, that status is the one reported, also
    if the thread missed the five seconds of its own [join]; and a thread
    that ends within the five seconds of its own [join] has its status
    reported. *)
Theorem late_results w seeds i seed :
  program_order w seeds →
  seeds !! i = Some seed →
  (∀ j, seeds !! j = Some seed → j = i) →
  ((∀ t, stored w i = Some t → (lookup_at w i 2 < t)%N) →
     seed_rows w seeds !! i = Some (seed, div "btn-danger" "offline"))
  ∧ ((∀ t i' k, stored w i = Some t → i' < length seeds → k < 3 →
        (lookup_at w i' k < t)%N) →
     ∀ E', seed_rows (with_probe_env w i E') seeds = seed_rows w seeds)
  ∧ (∀ t status, stored w i = Some t → (t ≤ lookup_at w i 0)%N →
       (check_seed_status (probe_env w i) seed).2 = Return status →
       seed_rows w seeds !! i = Some (settled seed status))
  ∧ (∀ status, is_alive_after_join w i = false →
       (check_seed_status (probe_env w i) seed).2 = Return status →
       seed_rows w seeds !! i = Some (settled seed status)).
Proof.
  intros Horder Hi Honce.
  assert (Hfound : ∀ t status, stored w i = Some t → (t ≤ lookup_at w i 0)%N →
    (check_seed_status (probe_env w i) seed).2 = Return status →
    seed_rows w seeds !! i = Some (settled seed status)).
  { intros t status Ht Hfirst Hcheck.
    apply (seed_rows_settled w seeds i i seed t status); try done.
    - intros k Hk. by apply (lookups_in_order w seeds).
    - intros j' t' status' Hne Hj'. by apply Honce in Hj'. }
  split_and!.
  - intros Hlate. apply seed_rows_unresolved; [done|].
    intros j t status k Hj Ht Hcheck Hk. apply Honce in Hj as ->.
    apply (lookups_before_last w seeds); eauto.
  - intros Hlate E'. by apply seed_rows_with_probe_env.
  - exact Hfound.
  - intros status (f & Hf & HfT)%joined_in_time Hcheck.
    destruct (ended_stored w seeds i seed f status 0 Horder Hi Hf) as (t & Ht & Hfirst);
      [|done|lia|by eapply Hfound].
    etrans; [exact HfT|]. apply join_called_mono. by apply lookup_lt_Some in Hi.
Qed.
End batch_facts.

(** ** The properties at the fixtures *)

Section scenarios.
Import Fixtures.

Lemma find_node_find_local_node_spec_witness :
  find_local_node (repr_container gw) registry (JNum 1234) = Return nodeA
  ∧ nodeA ∈ registry ∧ is_localhost nodeA = true ∧ rpc_port nodeA = 1234%Z.
Proof.
  split; [reflexivity|].
  destruct (find_node_find_local_node_spec (repr_container gw) registry "" "" ""
              (JNum 1234)) as (_ & _ & _ & _ & Hnum).
  exact (Hnum nodeA 1234%Z eq_refl eq_refl).
Defined.

Lemma set_rpchost_spec_witness :
  set_rpchost st0 "bts" "localhost:4321" "nodeA" "/info" = (st0, Redirect "/info")
  ∧ set_rpchost st0 "bts" "localhost:1234" "nodeA" "/info" =
      ({| nodes := registry; main_node := Some nodeA; is_online := true |},
       Redirect "/info").
Proof.
  split.
  - destruct (set_rpchost_spec st0 "bts" "localhost:4321" "nodeA" "/info")
      as (_ & Hunknown & _).
    apply Hunknown.
    repeat constructor.
    all: intros (? & Hhost & ?); vm_compute in Hhost; done.
  - destruct (set_rpchost_spec st0 "bts" "localhost:1234" "nodeA" "/info")
      as (_ & _ & Hknown).
    exact (proj1 (Hknown nodeA eq_refl)).
Defined.


Lemma response_carries_request_id_witness :
  dict_get "id" info_call = Some (JNum 7)
  ∧ (json_rpc_call gw registry (JDict info_call)).2
    = Return (JDict [("id", JNum 7); ("result", JStr "head_block 42")]).
Proof.
  split; [reflexivity|].
  destruct (response_carries_request_id gw registry info_call (JNum 7) eq_refl)
    as (_ & Hforward & _).
  destruct (Hforward (JStr "info") (JList []) [] nodeA
              [("id", JNum 0); ("result", JStr "head_block 42")])
    as [Hresp _]; [reflexivity..|].
  exact Hresp.
Defined.

Lemma failures_returned_as_envelopes_witness :
  dict_get "id" stray_call = Some (JNum 3)
  ∧ method_and_params (JDict stray_call) = Return (JStr "transfer", JList [])
  ∧ json_rpc_call gw registry (JDict stray_call) =
      ([], Return (JDict [("id", JNum 3);
                          ("error", JDict [("message",
                             JStr "Could not find active node on port 9999")])])).
Proof.
  split; [reflexivity|]. split; [reflexivity|].
  destruct (failures_returned_as_envelopes gw registry stray_call (JNum 3)
              (JStr "transfer") (JList []) eq_refl eq_refl) as (Hnone & _).
  apply Hnone.
  repeat constructor.
  all: intros [Hlocal Hport]; vm_compute in Hlocal, Hport; done.
Defined.

Lemma credentials_never_used_witness :
  strip_credentials peers_call
    = strip_credentials (envelope (JNum 7) "network_get_info" (Some 1234%Z) [])
  ∧ json_rpc_call gw registry (JDict peers_call)
    = json_rpc_call gw registry
        (JDict (envelope (JNum 7) "network_get_info" (Some 1234%Z) [])).
Proof.
  split; [reflexivity|].
  destruct (credentials_never_used gw registry peers_call
              (envelope (JNum 7) "network_get_info" (Some 1234%Z) []) eq_refl)
    as (_ & _ & _ & Hsame).
  exact Hsame.
Defined.

Lemma check_seed_status_classifies_witness :
  split_on ":" "seed.example.org:1776" = ["seed.example.org"; "1776"]
  ∧ py_int silent "1776" = Return 1776%Z
  ∧ (check_seed_status silent "seed.example.org:1776").2 = Return "stuck"
  ∧ (check_seed_status refusing "seed.example.org:1776").2 = Return "offline"
  ∧ (check_seed_status greeting "seed.example.org:1776").2 = Return "online".
Proof.
  split; [reflexivity|]. split; [reflexivity|]. split_and!.
  - destruct (check_seed_status_classifies silent "seed.example.org:1776"
                "seed.example.org" "1776" 1776%Z eq_refl eq_refl) as [_ Hopen].
    destruct (Hopen eq_refl) as [Hrecv _].
    by apply (Hrecv (Exn SocketTimeout "timed out")).
  - destruct (check_seed_status_classifies refusing "seed.example.org:1776"
                "seed.example.org" "1776" 1776%Z eq_refl eq_refl) as [Hfail _].
    by apply (Hfail (Exn ConnectionRefusedError "[Errno 111] Connection refused")).
  - destruct (check_seed_status_classifies greeting "seed.example.org:1776"
                "seed.example.org" "1776" 1776%Z eq_refl eq_refl) as [_ Hopen].
    destruct (Hopen eq_refl) as [_ Hrecv]. by apply (Hrecv "hello").
Defined.

(** C5, where the code misses it.  A listener that accepts and closes the
    connection at once is classified online, not offline: the read returns,
    empty, and the code takes any return of the read for the hello message
    its comment asks for.  A [connect] that fails for want of a route to the
    host is not classified offline, as a refused one is: its [OSError] is
    in neither class of the [except] clause and leaves
    [check_seed_status]. *)
Lemma check_seed_status_not_as_stated :
  (sock_connect unreachable (Some 3%Z) "203.0.113.9" 1776
     = Some (Exn OSError "[Errno 113] No route to host")
   ∧ (check_seed_status unreachable "203.0.113.9:1776").2
     = Raise (Exn OSError "[Errno 113] No route to host")
   ∧ (check_seed_status unreachable "203.0.113.9:1776").2 ≠ Return "offline")
  ∧ (sock_connect closing (Some 3%Z) "203.0.113.9" 1776 = None
     ∧ sock_recv closing (Some 3%Z) "203.0.113.9" 1776 256 = Return ""
     ∧ (check_seed_status closing "203.0.113.9:1776").2 = Return "online"
     ∧ (check_seed_status closing "203.0.113.9:1776").2 ≠ Return "offline").
Proof. by vm_compute. Qed.

(** The runs of the fixtures are runs of the program. *)
Lemma slow_pair_in_order : program_order slow_pair two_seeds.
Proof.
  split_and!.
  - intros [|i] t f [= <-] [= <-]; lia.
  - intros [|i] seed f status _ _ _; by eexists.
  - intros i. change (join_called slow_pair (length two_seeds)) with 6000%N.
    unfold slow_pair, after; simpl. lia.
  - intros i. unfold slow_pair, after; simpl. lia.
Defined.

Lemma late_greeting_in_order : program_order late_greeting two_seeds.
Proof.
  split_and!.
  - intros [|i] t f [= <-] [= <-]; lia.
  - intros [|i] seed f status _ _ _; by eexists.
  - intros i. change (join_called late_greeting (length two_seeds)) with 5900%N.
    unfold late_greeting, after; simpl. lia.
  - intros i. unfold late_greeting, after; simpl. lia.
Defined.

Lemma mixed_in_order : program_order mixed four_seeds.
Proof.
  split_and!.
  - intros [|[|[|i]]] t f [= <-] [= <-]; lia.
  - intros [|[|[|i]]] seed f status _ _ _; by eexists.
  - intros i. change (join_called mixed (length four_seeds)) with 8020%N.
    unfold mixed, after; simpl. lia.
  - intros i. unfold mixed, after; simpl. lia.
Defined.

Lemma seed_rows_spec_witness :
  is_alive_after_join late_greeting 0 = true
  ∧ seed_rows late_greeting two_seeds !! 0
    = Some ("198.51.100.7:1776", div "btn-success" "online")
  ∧ stored mixed 3 = Some 9000%N
  ∧ seed_rows mixed four_seeds !! 3 = Some ("198.51.100.4:1776", div "btn-danger" "offline")
  ∧ (seed_rows mixed four_seeds).*1 = four_seeds.
Proof.
  split; [reflexivity|].
  destruct (seed_rows_spec late_greeting two_seeds late_greeting_in_order)
    as (_ & _ & _ & _ & Hfound & _).
  destruct (seed_rows_spec mixed four_seeds mixed_in_order)
    as (Hfst & _ & _ & Hoffline & _).
  split_and!.
  - apply (Hfound 0 "198.51.100.7:1776" "online" eq_refl).
    + intros [|[|j]] Hj; by simplify_eq/=.
    + reflexivity.
    + right. exists 5400%N. split; [reflexivity|]. vm_compute. discriminate.
  - reflexivity.
  - apply Hoffline; [reflexivity|].
    intros [|[|[|[|j]]]] t status Hj Ht _; simplify_eq/=. vm_compute. reflexivity.
  - exact Hfst.
Defined.

(** C6 as stated fails.  The first of two threads is still alive when its
    [join] gives up after five seconds and has stored no status by then; it
    stores one 490 ms later, while the second thread is being waited for,
    and its endpoint is reported stuck, not offline. *)
Lemma slow_probe_not_reported_offline :
  program_order slow_pair two_seeds
  ∧ (join_called slow_pair 0 + join_timeout)%N = 5000%N
  ∧ is_alive_after_join slow_pair 0 = true
  ∧ stored slow_pair 0 = Some 5490%N
  ∧ seed_rows slow_pair two_seeds !! 0
    = Some ("198.51.100.7:1776", div "btn-warning" "stuck")
  ∧ seed_rows slow_pair two_seeds !! 0
    ≠ Some ("198.51.100.7:1776", div "btn-danger" "offline").
Proof. split; [exact slow_pair_in_order|by vm_compute]. Qed.

Lemma late_results_witness :
  stored mixed 3 = Some 9000%N
  ∧ seed_rows mixed four_seeds !! 3
    = Some ("198.51.100.4:1776", div "btn-danger" "offline")
  ∧ seed_rows (with_probe_env mixed 3 silent) four_seeds = seed_rows mixed four_seeds
  ∧ is_alive_after_join late_greeting 0 = true
  ∧ seed_rows late_greeting two_seeds !! 0
    = Some ("198.51.100.7:1776", div "btn-success" "online").
Proof.
  split; [reflexivity|].
  destruct (late_results mixed four_seeds 3 "198.51.100.4:1776" mixed_in_order eq_refl)
    as (Hoffline & Hdropped & _).
  { intros [|[|[|[|j]]]] Hj; by simplify_eq/=. }
  destruct (late_results late_greeting two_seeds 0 "198.51.100.7:1776"
              late_greeting_in_order eq_refl) as (_ & _ & Hmerged & _).
  { intros [|[|j]] Hj; by simplify_eq/=. }
  split_and!.
  - apply Hoffline. intros t [= <-]. vm_compute. reflexivity.
  - apply Hdropped. intros t i' k [= <-] Hi' Hk.
    unfold mixed, after; simpl in *. lia.
  - reflexivity.
  - apply (Hmerged 5390%N "online" eq_refl); [|reflexivity].
    vm_compute. discriminate.
Defined.

(** C10 as stated fails.  The first thread misses the deadline of its own
    [join], 5 s after the loop begins, and stores its status at 5.39 s; the
    loop ends at 5.9 s, and the status the first thread found is in the
    output. *)
Lemma late_result_merged :
  program_order late_greeting two_seeds
  ∧ (join_called late_greeting 0 + join_timeout)%N = 5000%N
  ∧ stored late_greeting 0 = Some 5390%N
  ∧ finish late_greeting 0 = Some 5400%N
  ∧ is_alive_after_join late_greeting 0 = true
  ∧ join_called late_greeting 2 = 5900%N
  ∧ seed_rows late_greeting two_seeds
    = [("198.51.100.7:1776", div "btn-success" "online");
       ("198.51.100.8:1776", div "btn-warning" "stuck")].
Proof. split; [exact late_greeting_in_order|by vm_compute]. Qed.

(** C3 as stated fails.  The port 9999 is the port of no registered node,
    and the envelope of the scenario, with its method at the top and no
    [params], gets no error envelope: [KeyError] leaves the gateway. *)
Lemma unresolved_port_not_answered :
  find_local_node (repr_container gw) registry (JNum 9999)
    = Raise (Exn ValueError "Node not found: localhost:9999")
  ∧ dict_get "id" [("id", JNum 3); ("wallet_port", JNum 9999); ("method", JStr "info")]
    = Some (JNum 3)
  ∧ json_rpc_call gw registry
      (JDict [("id", JNum 3); ("wallet_port", JNum 9999); ("method", JStr "info")])
    = ([], Raise (Exn KeyError "params"))
  ∧ ∀ body, (json_rpc_call gw registry
      (JDict [("id", JNum 3); ("wallet_port", JNum 9999); ("method", JStr "info")])).2
    ≠ Return body.
Proof. by vm_compute. Qed.

(** The scenarios of the specification. *)

(** An intercepted call on the port of [nodeA]: answered by the node. *)
Example scenario_intercepted :
  json_rpc_call gw registry (JDict peers_call) =
    ([NodeCall nodeA "network_get_info" []],
     Return (JDict [("result", JStr "nodeA.network_get_info"); ("id", JNum 7)])).
Proof. reflexivity. Qed.

(** The envelope is read through [params]: without it, [KeyError] leaves
    the gateway before the [try] is entered, whatever the port; so does it,
    from inside a handler, when the envelope has no [id]. *)
Example envelope_without_params :
  json_rpc_call gw registry
    (JDict [("id", JNum 3); ("wallet_port", JNum 9999); ("method", JStr "info")])
  = ([], Raise (Exn KeyError "params")).
Proof. reflexivity. Qed.

Example envelope_without_id :
  json_rpc_call gw registry
    (JDict [("params", JList [JNum 0; JStr "info"; JList []]); ("wallet_port", JNum 9999)])
  = ([], Raise (Exn KeyError "id")).
Proof. reflexivity. Qed.

(** A refusing, a silent and a greeting peer, and a probe that ends when the
    page has been built. *)
Example scenario_batch :
  seed_rows mixed four_seeds =
    [("198.51.100.1:1776", div "btn-danger" "offline");
     ("198.51.100.2:1776", div "btn-warning" "stuck");
     ("198.51.100.3:1776", div "btn-success" "online");
     ("198.51.100.4:1776", div "btn-danger" "offline")]
  ∧ join_called mixed 4 = 8020%N.
Proof. by vm_compute. Qed.

(** A greeting that is stored after the first look-up of its item and before
    the second is shown under the button for offline. *)
Example scenario_torn :
  lookup_at torn 0 0 = 5001%N
  ∧ stored torn 0 = Some 5002%N
  ∧ lookup_at torn 0 1 = 5002%N
  ∧ seed_rows torn ["198.51.100.7:1776"]
    = [("198.51.100.7:1776", div "btn-danger" "online")].
Proof. by vm_compute. Qed.
End scenarios.


(** * Further properties *)

(** ** [split_columns] *)

Section layout_facts.
Import Layout.
Implicit Types (items : list (string * string)) (attrs : gmap string (list (nat * nat))).

Lemma length_padded items : length (padded items) = 2 * ((length items + 1) / 2).
Proof.
  unfold padded. rewrite List.length_app.
  pose proof (Nat.div_mod_eq (length items) 2).
  pose proof (Nat.div_mod_eq (length items + 1) 2).
  pose proof (Nat.mod_upper_bound (length items) 2).
  pose proof (Nat.mod_upper_bound (length items + 1) 2).
  case_decide; cbn [length]; lia.
Qed.

Lemma split_columns_rows_eq items attrs :
  (split_columns items attrs).1 =
    (λ p, (p.1.1, p.1.2, p.2.1, p.2.2)) <$>
      zip (take ((length items + 1) / 2) (padded items))
          (drop ((length items + 1) / 2) (padded items)).
Proof.
  pose proof (length_padded items) as Hlen.
  unfold split_columns, padded in *. case_decide as Hodd; cbn [fst snd].
  - done.
  - rewrite app_nil_r in *.
    pose proof (Nat.div_mod_eq (length items) 2).
    pose proof (Nat.mod_upper_bound (length items) 2).
    by replace (length items / 2) with ((length items + 1) / 2) by lia.
Qed.

Lemma split_columns_attrs_eq items attrs :
  (split_columns items attrs).2 =
    fmap (M := gmap string)
      (fmap (λ ij : nat * nat,
         if decide (ij.1 < (length items + 1) / 2) then ij
         else (ij.1 - (length items + 1) / 2, ij.2 + 2))) attrs.
Proof.
  pose proof (length_padded items) as Hlen.
  unfold split_columns, padded in *. case_decide as Hodd; cbn [fst snd].
  - done.
  - rewrite app_nil_r in *.
    pose proof (Nat.div_mod_eq (length items) 2).
    pose proof (Nat.mod_upper_bound (length items) 2).
    by replace (length items / 2) with ((length items + 1) / 2) by lia.
Qed.

Lemma split_columns_lookup items attrs i :
  i < (length items + 1) / 2 →
  (split_columns items attrs).1 !! i =
    p ← padded items !! i;
    q ← padded items !! ((length items + 1) / 2 + i);
    Some (p.1, p.2, q.1, q.2).
Proof.
  intros Hi. pose proof (length_padded items) as Hlen.
  rewrite split_columns_rows_eq, list_lookup_fmap.
  rewrite lookup_zip_with, lookup_take, lookup_drop.
  case_decide; [|lia].
  destruct (padded items !! i) as [[a b]|]; [|done]. simpl.
  by destruct (padded items !! _) as [[c d]|].
Qed.

Lemma padded_lookup_item items i p : items !! i = Some p → padded items !! i = Some p.
Proof. intros Hi. unfold padded. by apply lookup_app_l_Some. Qed.

(** An item of the first half is the left half of the row of its index. *)
Lemma split_columns_left items attrs i a b :
  items !! i = Some (a, b) → i < (length items + 1) / 2 →
  ∃ c d, (split_columns items attrs).1 !! i = Some (a, b, c, d).
Proof.
  intros Hi Hlt. pose proof (length_padded items) as Hlen.
  rewrite split_columns_lookup by done.
  destruct (lookup_lt_is_Some_2 (padded items) ((length items + 1) / 2 + i))
    as [[c d] Hcd]; [lia|].
  rewrite (padded_lookup_item _ _ _ Hi), Hcd. by exists c, d.
Qed.

(** An item of the second half is the right half of a row. *)
Lemma split_columns_right items attrs i a b :
  items !! i = Some (a, b) → ((length items + 1) / 2 ≤ i)%nat →
  ∃ c d, (split_columns items attrs).1 !! (i - (length items + 1) / 2) = Some (c, d, a, b).
Proof.
  intros Hi Hge. pose proof (length_padded items) as Hlen.
  pose proof (lookup_lt_Some _ _ _ (padded_lookup_item _ _ _ Hi)).
  rewrite split_columns_lookup by lia.
  replace ((length items + 1) / 2 + (i - (length items + 1) / 2)) with i by lia.
  destruct (lookup_lt_is_Some_2 (padded items) (i - (length items + 1) / 2))
    as [[c d] Hcd]; [lia|].
  rewrite (padded_lookup_item _ _ _ Hi), Hcd. by exists c, d.
Qed.

(** X1.  [split_columns] makes half as many rows as there are items, rounded
    up.  Every item is in the table once, where a reader of two columns
    expects it: an item of the first half is the left pair of the row of its
    index, an item of the second half the right pair of the row of its index
    less the number of rows; with an odd number of items the right pair of
    the last row is the pair of empty strings. *)
Theorem split_columns_rows items attrs :
  length (split_columns items attrs).1 = (length items + 1) / 2
  ∧ (∀ i a b, items !! i = Some (a, b) →
       if decide (i < (length items + 1) / 2)
       then ∃ c d, (split_columns items attrs).1 !! i = Some (a, b, c, d)
       else ∃ c d, (split_columns items attrs).1 !! (i - (length items + 1) / 2)
                   = Some (c, d, a, b))
  ∧ (length items mod 2 = 1 →
       ∃ a b, (split_columns items attrs).1 !! (length items / 2) = Some (a, b, "", "")).
Proof.
  pose proof (length_padded items) as Hlen. split_and!.
  - rewrite split_columns_rows_eq, length_fmap, length_zip_with, length_take, length_drop.
    lia.
  - intros i a b Hi. case_decide.
    + by apply split_columns_left.
    + apply split_columns_right; [done|lia].
  - intros Hodd.
    pose proof (Nat.div_mod_eq (length items) 2).
    pose proof (Nat.div_mod_eq (length items + 1) 2).
    pose proof (Nat.mod_upper_bound (length items + 1) 2).
    rewrite split_columns_lookup by lia.
    replace ((length items + 1) / 2 + length items / 2) with (length items) by lia.
    destruct (lookup_lt_is_Some_2 (padded items) (length items / 2))
      as [[a b] Hab]; [lia|]. rewrite Hab.
    unfold padded. rewrite decide_True by done.
    rewrite list_lookup_middle by done. by exists a, b.
Qed.

(** X2.  [split_columns] moves the attributes with the cells: the k-th cell
    listed for a style, when it is a cell of an item, is after the call,
    still k-th for that style, the cell of the table that shows the same
    text. *)
Theorem split_columns_attrs_follow items attrs style cells k i j :
  attrs !! style = Some cells →
  cells !! k = Some (i, j) →
  i < length items → j < 2 →
  ∃ cells' i' j',
    (split_columns items attrs).2 !! style = Some cells'
    ∧ length cells' = length cells
    ∧ cells' !! k = Some (i', j')
    ∧ is_Some (item_cell items i j)
    ∧ row_cell (split_columns items attrs).1 i' j' = item_cell items i j.
Proof.
  intros Hstyle Hk Hi Hj.
  destruct (lookup_lt_is_Some_2 items i Hi) as [[a b] Hab].
  assert (Hcell : is_Some (item_cell items i j)).
  { unfold item_cell. rewrite Hab. destruct j as [|[|j]]; [by eexists..|lia]. }
  assert (Hcells : ∀ i' j',
    (if decide (i < (length items + 1) / 2) then (i, j)
     else (i - (length items + 1) / 2, j + 2)) = (i', j') →
    ∃ cells', (split_columns items attrs).2 !! style = Some cells'
      ∧ length cells' = length cells ∧ cells' !! k = Some (i', j')).
  { intros i' j' Heq. rewrite split_columns_attrs_eq, lookup_fmap, Hstyle.
    eexists. split; [done|]. by rewrite length_fmap, list_lookup_fmap, Hk, <-Heq. }
  destruct (decide (i < (length items + 1) / 2)) as [Hhalf|Hhalf].
  - destruct (Hcells i j eq_refl) as (cells' & ? & ? & ?).
    exists cells', i, j. split_and!; [done..|].
    destruct (split_columns_left items attrs i a b Hab Hhalf) as (c & d & Hrow).
    unfold item_cell, row_cell. rewrite Hab, Hrow.
    destruct j as [|[|j]]; [done..|lia].
  - destruct (Hcells _ _ eq_refl) as (cells' & ? & ? & ?).
    exists cells', (i - (length items + 1) / 2), (j + 2). split_and!; [done..|].
    destruct (split_columns_right items attrs i a b Hab) as (c & d & Hrow); [lia|].
    unfold item_cell, row_cell. rewrite Hab, Hrow.
    destruct j as [|[|j]]; [done..|lia].
Qed.
End layout_facts.


(** ** More on the gateway *)

Section gateway_more.
Variables (E : Gateway.env) (nodes : list Node).
Implicit Types (d c : pydict) (method params port id : json) (node : Node) (e : exn).

Lemma try_body_id_ext c c' port method params :
  dict_get "id" c = dict_get "id" c' →
  try_body E nodes c port method params = try_body E nodes c' port method params.
Proof.
  intros Hid. unfold try_body, dict_getitem. rewrite Hid. done.
Qed.

Lemma handlers_id_ext c c' port tried :
  dict_get "id" c = dict_get "id" c' →
  handlers E c port tried = handlers E c' port tried.
Proof. intros Hid. unfold handlers, dict_getitem. by rewrite Hid. Qed.

(** X3.  Of an envelope the gateway reads the members [params],
    [wallet_port] and [id], and nothing else: two envelopes that agree on
    these three lead to the same calls and the same response or exception,
    whatever their [method] member or any other member says. *)
Theorem only_three_members_read d1 d2 :
  dict_get "params" d1 = dict_get "params" d2 →
  dict_get "wallet_port" d1 = dict_get "wallet_port" d2 →
  dict_get "id" d1 = dict_get "id" d2 →
  json_rpc_call E nodes (JDict d1) = json_rpc_call E nodes (JDict d2).
Proof.
  intros Hparams Hport Hid.
  assert (Hmp : method_and_params (JDict d1) = method_and_params (JDict d2)).
  { unfold method_and_params, getitem_str, dict_getitem. by rewrite Hparams. }
  assert (Hp : envelope_port d1 = envelope_port d2).
  { unfold envelope_port. by rewrite Hport. }
  assert (Hleft : dict_get "id" (pop_fields d1).2 = dict_get "id" (pop_fields d2).2).
  { by rewrite !id_after_pops. }
  destruct (method_and_params (JDict d2)) as [[method params]|e] eqn:Hmp2.
  - rewrite (json_rpc_call_dict E nodes d1 method params Hmp).
    rewrite (json_rpc_call_dict E nodes d2 method params Hmp2).
    rewrite Hp, (try_body_id_ext _ _ _ _ _ Hleft). f_equal. by apply handlers_id_ext.
  - unfold json_rpc_call. by rewrite Hmp, Hmp2.
Qed.

(** X4.  The gateway makes at most one call per request, and makes it only
    for an envelope that is an object, whose port resolves to a registered
    local node and whose arguments unpack. *)
Theorem at_most_one_call (c : json) :
  (length (json_rpc_call E nodes c).1 ≤ 1)%nat
  ∧ ((json_rpc_call E nodes c).1 ≠ [] →
     ∃ d node method params args,
       c = JDict d
       ∧ method_and_params c = Return (method, params)
       ∧ find_local_node (repr_container E) nodes (envelope_port d) = Return node
       ∧ unpack params = Return args).
Proof.
  destruct (json_rpc_call E nodes c).1 as [|k calls] eqn:Hcalls; [split; [simpl; lia|done]|].
  destruct (json_rpc_call_calls E nodes c k)
    as (d & node & method & params & args & -> & Hmp & Hfind & Hargs & Hone & _).
  { rewrite Hcalls. by left. }
  rewrite Hcalls in Hone. injection Hone as ->. split; [simpl; lia|].
  intros _. by exists d, node, method, params, args.
Qed.

(** X5.  Of the exceptions a dispatched call raises only [ValueError] and
    [core.RPCError], and the exceptions of their subclasses, are turned into
    an error envelope: any other one, a rejected login
    ([core.UnauthorizedError]) or a lost connection
    ([requests.exceptions.ConnectionError]) among them, leaves the gateway
    as it is, once the call has been made. *)
Theorem other_exceptions_escape d method params node e :
  method_and_params (JDict d) = Return (method, params) →
  find_local_node (repr_container E) nodes (envelope_port d) = Return node →
  (dispatch E node (envelope_port d) method params).2 = Raise e →
  caught_by e ValueError = false →
  caught_by e RPCError = false →
  json_rpc_call E nodes (JDict d) =
    ((dispatch E node (envelope_port d) method params).1, Raise e).
Proof.
  intros Hmp Hfind Hraise Hvalue Hrpc.
  rewrite (json_rpc_call_dict _ _ _ _ _ Hmp), (try_body_found _ _ _ _ _ _ _ Hfind). simpl.
  rewrite Hraise. simpl. by rewrite Hvalue, Hrpc.
Qed.

(** X6.  A [ValueError] raised by the dispatched call itself, for instance
    by the decoding of an answer that is not JSON, is reported as a missing
    node: the gateway returns "Could not find active node on port <port>"
    although the port resolved and the call was made. *)
Theorem value_error_reported_as_not_found d id method params node e :
  dict_get "id" d = Some id →
  method_and_params (JDict d) = Return (method, params) →
  find_local_node (repr_container E) nodes (envelope_port d) = Return node →
  (dispatch E node (envelope_port d) method params).2 = Raise e →
  caught_by e ValueError = true →
  json_rpc_call E nodes (JDict d) =
    ((dispatch E node (envelope_port d) method params).1,
     Return (error_envelope id
               ("Could not find active node on port "
                +:+ format (repr_container E) (envelope_port d)))).
Proof.
  intros Hid Hmp Hfind Hraise Hcaught.
  rewrite (json_rpc_call_dict _ _ _ _ _ Hmp), (try_body_found _ _ _ _ _ _ _ Hfind). simpl.
  rewrite Hraise. simpl. rewrite Hcaught.
  unfold dict_getitem. by rewrite id_after_dels, Hid.
Qed.

(** X7.  An envelope without [id] never gets a response, yet its call is
    made all the same: the gateway makes the calls it would make if the
    envelope had an id, and when the call returns, [KeyError] for [id] leaves
    the gateway. *)
Theorem call_made_before_id_is_missed d :
  dict_get "id" d = None →
  (∀ calls r, json_rpc_call E nodes (JDict d) ≠ (calls, Return r))
  ∧ (∀ id, (json_rpc_call E nodes (JDict d)).1
           = (json_rpc_call E nodes (JDict (("id", id) :: d))).1)
  ∧ (∀ method params node result,
       method_and_params (JDict d) = Return (method, params) →
       find_local_node (repr_container E) nodes (envelope_port d) = Return node →
       (dispatch E node (envelope_port d) method params).2 = Return result →
       json_rpc_call E nodes (JDict d) =
         ((dispatch E node (envelope_port d) method params).1,
          Raise (Exn KeyError "id"))).
Proof.
  intros Hid. split_and!.
  - intros calls r (d' & id & [= <-] & Hid' & _)%json_rpc_call_Return. congruence.
  - intros id.
    assert (Hmp : method_and_params (JDict (("id", id) :: d)) = method_and_params (JDict d))
      by done.
    assert (Hp : envelope_port (("id", id) :: d) = envelope_port d) by done.
    destruct (method_and_params (JDict d)) as [[method params]|e] eqn:Hmp'.
    + rewrite (json_rpc_call_dict _ _ _ _ _ Hmp), (json_rpc_call_dict _ _ _ _ _ Hmp').
      simpl. rewrite Hp. unfold try_body.
      destruct (find_local_node _ _ _); [|done]. by destruct (dispatch _ _ _ _ _).
    + unfold json_rpc_call. by rewrite Hmp, Hmp'.
  - intros method params node result Hmp Hfind Hret.
    rewrite (json_rpc_call_dict _ _ _ _ _ Hmp), (try_body_found _ _ _ _ _ _ _ Hfind). simpl.
    rewrite Hret. simpl. unfold dict_getitem. by rewrite id_after_dels, Hid.
Qed.

(** X8.  A request that is not an envelope is not answered: when it is not
    an object [TypeError] leaves the gateway, when it has no [params]
    [KeyError], when [params] is a list of fewer than three entries
    [IndexError]; in all three cases before any lookup or call. *)
Theorem malformed_envelope_raises :
  (∀ c : json, (∀ d, c ≠ JDict d) →
     ∃ message, json_rpc_call E nodes c = ([], Raise (Exn TypeError message)))
  ∧ (∀ d, dict_get "params" d = None →
       json_rpc_call E nodes (JDict d) = ([], Raise (Exn KeyError "params")))
  ∧ (∀ d entries, dict_get "params" d = Some (JList entries) → length entries < 3 →
       json_rpc_call E nodes (JDict d)
       = ([], Raise (Exn IndexError "list index out of range"))).
Proof.
  split_and!.
  - intros c Hc. destruct c as [| | | | |d]; try (by eexists). by destruct (Hc d).
  - intros d Hparams. unfold json_rpc_call, method_and_params, getitem_str, dict_getitem.
    by rewrite Hparams.
  - intros d entries Hparams Hlen.
    unfold json_rpc_call, method_and_params, getitem_str, dict_getitem.
    rewrite Hparams. simpl.
    destruct entries as [|? [|? [|? ?]]]; simpl in *; [done..|lia].
Qed.

(** X9.  When the forwarded call returns an answer that is not an object,
    the gateway has no response either: storing the id in the answer raises
    [TypeError], after the call has been made. *)
Theorem answer_must_be_an_object d id method params args node result :
  dict_get "id" d = Some id →
  method_and_params (JDict d) = Return (method, params) →
  find_local_node (repr_container E) nodes (envelope_port d) = Return node →
  intercepted method = None →
  unpack params = Return args →
  rpc_call E "localhost" (envelope_port d) (rpc_user node) (rpc_password node)
    method args = Return result →
  (∀ body, result ≠ JDict body) →
  ∃ message,
    json_rpc_call E nodes (JDict d) =
      ([RpcCall "localhost" (envelope_port d) (rpc_user node) (rpc_password node)
          method args],
       Raise (Exn TypeError message)).
Proof.
  intros Hid Hmp Hfind Hm Hargs Hcall Hresult.
  rewrite (json_rpc_call_dict _ _ _ _ _ Hmp), (try_body_found _ _ _ _ _ _ _ Hfind).
  rewrite (dispatch_forwarded _ _ _ _ _ _ Hm Hargs). simpl. rewrite Hcall. simpl.
  unfold dict_getitem. rewrite id_after_dels, Hid. simpl.
  destruct result as [| | | | |body]; try (by eexists). by destruct (Hresult body).
Qed.

End gateway_more.

(** ** More on the registry *)

Section registry_more.
Import Session.
Implicit Types (st : state) (nodes more : list Node) (type host nm url : string).
Implicit Types (requests : list (string * string * string * string)).

#[local] Arguments selected : simpl never.

Lemma set_rpchost_selected st type host nm url :
  set_rpchost st type host nm url =
    ({| nodes := nodes st;
        main_node := match selected (nodes st) (type, host, nm, url) with
                     | Some node => Some node
                     | None => main_node st
                     end;
        is_online := is_online st |},
     Redirect url).
Proof.
  unfold set_rpchost, set_rpchost_body, selected.
  destruct (find_node _ _ _ _) as [node|e] eqn:Hfind; [done|].
  apply find_node_Raise in Hfind as [-> _]. by destruct st.
Qed.

Lemma serve_snoc st requests request :
  serve st (requests ++ [request]) =
    let '(type, host, nm, url) := request in
    ((set_rpchost (serve st requests).1 type host nm url).1,
     (serve st requests).2 ++ [(set_rpchost (serve st requests).1 type host nm url).2]).
Proof.
  unfold serve at 1. rewrite foldl_app. simpl. fold (serve st requests).
  destruct request as [[[type host] nm] url].
  by destruct (set_rpchost _ _ _ _ _).
Qed.

Lemma selected_elem_of nodes request node :
  selected nodes request = Some node → node ∈ nodes.
Proof.
  destruct request as [[[type host] nm] url]. unfold selected.
  destruct (find_node _ _ _ _) as [n|] eqn:Hfind; [|done].
  intros [= ->]. apply find_node_Return in Hfind as (before & after & -> & _).
  set_solver.
Qed.

(** X11.  Whatever requests [set_rpchost] serves, found or not, the registry
    and the online flag stay as they were, every request is answered with
    the redirect to its own url, and a main node that was one of the
    registered nodes is one of them afterwards. *)
Theorem serve_keeps_registry st requests :
  nodes (serve st requests).1 = nodes st
  ∧ is_online (serve st requests).1 = is_online st
  ∧ (serve st requests).2 = (λ request, Redirect request.2) <$> requests
  ∧ ((∀ node, main_node st = Some node → node ∈ nodes st) →
     ∀ node, main_node (serve st requests).1 = Some node → node ∈ nodes st).
Proof.
  induction requests as [|[[[type host] nm] url] requests IH] using rev_ind; [done|].
  destruct IH as (Hnodes & Honline & Hout & Hmain).
  rewrite serve_snoc, set_rpchost_selected. simpl. split_and!; [done..| |].
  - by rewrite Hout, fmap_app.
  - intros Hst node. rewrite Hnodes.
    destruct (selected _ _) as [node'|] eqn:Hsel; [|by apply Hmain].
    intros [= <-]. by eapply selected_elem_of.
Qed.

(** X12.  After any sequence of requests the main node is the node of the
    last request that named a registered node, and the main node of before
    when no request did. *)
Theorem last_found_node_is_main st requests :
  main_node (serve st requests).1 =
    match last (omap (selected (nodes st)) requests) with
    | Some node => Some node
    | None => main_node st
    end.
Proof.
  induction requests as [|[[[type host] nm] url] requests IH] using rev_ind; [done|].
  rewrite serve_snoc, set_rpchost_selected, omap_app. simpl.
  destruct (serve_keeps_registry st requests) as (-> & _).
  destruct (selected (nodes st) _) as [node|]; simpl.
  - by rewrite last_snoc.
  - by rewrite app_nil_r.
Qed.

(** X13.  Registering more nodes after the others changes no lookup that
    succeeded: over the longer registry [find_node] and [find_local_node]
    return the node they returned before, and search the added nodes only
    when the lookup failed. *)
Theorem lookups_prefer_earlier_nodes repr nodes more type host nm (port : json) :
  find_node (nodes ++ more) type host nm =
    match find_node nodes type host nm with
    | Return node => Return node
    | Raise _ => find_node more type host nm
    end
  ∧ find_local_node repr (nodes ++ more) port =
      match find_local_node repr nodes port with
      | Return node => Return node
      | Raise _ => find_local_node repr more port
      end.
Proof.
  split; induction nodes as [|node nodes IH]; simpl; try done.
  - by destruct (node_matches _ _ _ _).
  - by destruct (local_node_matches _ _).
Qed.
End registry_more.

(** ** More on the prober *)

Section prober_more.
Import Layout.
Implicit Types (E : Prober.env) (w : world) (seeds : list string) (seed status : string).
Implicit Types (i j n : nat) (f T : N).

Lemma length_split_on a s : length (split_on a s) = S (occurrences a s).
Proof.
  induction s as [|b s IH]; [done|]. simpl.
  case_decide; simpl; [by rewrite IH|].
  destruct (split_on a s); simpl in *; lia.
Qed.

(** X14.  When [check_seed_status] returns, the status tells the state it
    leaves the socket in: closed for online; connected and not closed for
    stuck; neither connected nor closed for offline; in all three cases with
    the timeout of 3 seconds set. *)
Theorem socket_state_by_status E seed s status :
  check_seed_status E seed = (Some s, Return status) →
  sock_timeout s = Some 3%Z
  ∧ (status = "online" ∧ sock_connected s = false ∧ sock_closed s = true
     ∨ status = "stuck" ∧ sock_connected s = true ∧ sock_closed s = false
     ∨ status = "offline" ∧ sock_connected s = false ∧ sock_closed s = false).
Proof.
  unfold check_seed_status. intros Hc.
  repeat (case_match; simplify_eq/=); naive_solver.
Qed.

(** X15.  A seed is probed only when its text has exactly one colon: with
    none, or with more than one as in an IPv6 address, [check_seed_status]
    raises [ValueError] before a socket exists; with exactly one a socket is
    made, whatever comes after. *)
Theorem seed_needs_one_colon E seed :
  (occurrences ":" seed ≠ 1 →
   ∃ message, check_seed_status E seed = (None, Raise (Exn ValueError message)))
  ∧ (occurrences ":" seed = 1 → is_Some (check_seed_status E seed).1).
Proof.
  pose proof (length_split_on ":" seed) as Hlen. unfold check_seed_status.
  destruct (split_on ":" seed) as [|host [|port [|? ?]]]; simpl in Hlen.
  - lia.
  - split; [by eexists|lia].
  - split; [lia|]. intros _. repeat case_match; by eexists.
  - split; [by eexists|lia].
Qed.

(** X16.  The loop over the threads ends no earlier than it begins and no
    later than five seconds per thread after that; it takes the full five
    seconds per thread when every thread is still alive as its [join]
    returns. *)
Theorem join_loop_duration w n :
  (join_start w ≤ join_called w n)%N
  ∧ (join_called w n ≤ join_start w + join_timeout * N.of_nat n)%N
  ∧ ((∀ i, i < n → is_alive_after_join w i = true) →
     join_called w n = (join_start w + join_timeout * N.of_nat n)%N).
Proof.
  split_and!.
  - apply (join_called_mono w 0 n). lia.
  - apply join_called_bound.
  - induction n as [|n IH]; intros Halive; [unfold join_called; simpl; lia|].
    assert (Hn : join_called w n = (join_start w + join_timeout * N.of_nat n)%N)
      by (apply IH; intros; apply Halive; lia).
    specialize (Halive n (Nat.lt_succ_diag_r n)).
    unfold is_alive_after_join in Halive.
    rewrite join_called_S. rewrite Hn in *. unfold join, join_timeout in *.
    destruct (finish w n) as [f|]; [|lia].
    apply N.ltb_lt in Halive.
    destruct (N.leb_spec f (join_start w + 5000 * N.of_nat n)); lia.
Qed.

(** X17.  An item that shows anything but the offline button with the
    label offline shows a status that a probe of that very endpoint found
    and had stored by one of the look-ups of the item: no item shows a
    status on the word of a probe of another endpoint, or of a probe that
    has not stored its result. *)
Theorem shown_status_was_found w seeds i seed label :
  seed_rows w seeds !! i = Some (seed, label) →
  label ≠ div "btn-danger" "offline" →
  ∃ j t k style status,
    seeds !! j = Some seed
    ∧ stored w j = Some t
    ∧ k < 3 ∧ (t ≤ lookup_at w i k)%N
    ∧ (check_seed_status (probe_env w j) seed).2 = Return status
    ∧ label = div style status.
Proof.
  rewrite seed_rows_lookup.
  destruct (seeds !! i) as [seed'|] eqn:Hi; [|done]. simpl. intros [= Hrow] Hshown.
  pose proof (row_fst (seed_status_at w seeds (lookup_at w i 0))
                (seed_status_at w seeds (lookup_at w i 1))
                (seed_status_at w seeds (lookup_at w i 2)) seed') as Hfst.
  rewrite Hrow in Hfst. simpl in Hfst. subst seed'.
  unfold row in Hrow. case_decide as Hfirst; [|case_decide as Hsecond].
  - apply seed_status_at_origin in Hfirst as (j & t & Hj & Ht & Hseen & Hcheck).
    injection Hrow as <-. exists j, t, 0, "btn-success", "online". split_and!; (done || lia).
  - apply seed_status_at_origin in Hsecond as (j & t & Hj & Ht & Hseen & Hcheck).
    injection Hrow as <-. exists j, t, 1, "btn-warning", "stuck". split_and!; (done || lia).
  - destruct (seed_status_at w seeds (lookup_at w i 2) !! seed) as [status|] eqn:Hthird.
    + apply seed_status_at_origin in Hthird as (j & t & Hj & Ht & Hseen & Hcheck).
      injection Hrow as <-. exists j, t, 2, "btn-danger", status. split_and!; (done || lia).
    + injection Hrow as <-. done.
Qed.

(** X18.  When an endpoint is listed more than once, each of its items that
    is built when the last of its probes to store a status has stored it
    shows that status: those items agree, whatever the order in which the
    threads end. *)
Theorem last_probe_wins w seeds j seed t status :
  seeds !! j = Some seed →
  stored w j = Some t →
  (check_seed_status (probe_env w j) seed).2 = Return status →
  (∀ j' t' status', j' ≠ j → seeds !! j' = Some seed → stored w j' = Some t' →
     (check_seed_status (probe_env w j') seed).2 = Return status' → (t' < t)%N) →
  ∀ i, seeds !! i = Some seed →
    (∀ k, k < 3 → (t ≤ lookup_at w i k)%N) →
    seed_rows w seeds !! i = Some (settled seed status).
Proof.
  intros Hj Ht Hcheck Hothers i Hi Hseen.
  by apply (seed_rows_settled w seeds i j seed t status).
Qed.
End prober_more.


(** ** The table views *)

Section views_facts.
Import Views.
Implicit Types (attrs : cell_attrs) (style colour : string) (cell : nat * nat).
Implicit Types (cells : list (nat * nat)) (peers : list json) (api : node_api).

(** *** Comprehensions that may raise *)

Lemma mapM_Return {A B} (f : A → outcome B) (l : list A) (k : list B) :
  mapM f l = Return k ↔ Forall2 (λ x y, f x = Return y) l k.
Proof.
  revert k. induction l as [|x l IH]; intros k; simpl.
  - split; [intros [= <-]; constructor|by inv 1].
  - destruct (f x) as [y|e] eqn:Hx; simpl.
    + destruct (mapM f l) as [k'|e] eqn:Hl; simpl.
      * split.
        -- intros [= <-]. constructor; [done|]. by apply IH.
        -- inv 1. f_equal. f_equal; [congruence|].
           by match goal with H : Forall2 _ l _ |- _ => apply IH in H; simplify_eq end.
      * split; [done|]. inv 1.
        by match goal with H : Forall2 _ l _ |- _ => apply IH in H end.
    + split; [done|]. inv 1. congruence.
Qed.


(** *** Cells *)

Lemma elem_of_extend style style' cells attrs cell :
  cell ∈ default [] (extend style cells attrs !! style') ↔
  cell ∈ default [] (attrs !! style') ∨ style = style' ∧ cell ∈ cells.
Proof.
  unfold extend. destruct (decide (style = style')) as [<-|Hne].
  - rewrite lookup_insert_eq. simpl. rewrite elem_of_app. naive_solver.
  - rewrite lookup_insert_ne by done. naive_solver.
Qed.

(** *** [view_logs] *)

Lemma colour_log_rows_cells (rows : list (string * string * string * string)) k attrs colour cell :
  cell ∈ default [] (foldl colour_log_row attrs (imap (λ i, pair (k + i)) rows) !! colour) ↔
  cell ∈ default [] (attrs !! colour)
  ∨ ∃ i d, rows !! i = Some d ∧ level_colour d.1.1.2 = Some colour
      ∧ (cell = (k + i, 1) ∨ cell = (k + i, 2)).
Proof.
  revert k attrs. induction rows as [|d rows IH]; intros k attrs.
  - simpl. split; [by left|]. intros [?|(i & d & Hi & _)]; [done|].
    by rewrite lookup_nil in Hi.
  - rewrite imap_cons. simpl.
    rewrite (imap_ext _ (λ i, pair (S k + i))) by (intros; simpl; f_equal; lia).
    rewrite IH. unfold colour_log_row at 1. simpl. rewrite Nat.add_0_r. split.
    + intros [Hcell|(i & d' & Hi & Hlevel & Hcell)].
      * destruct (level_colour d.1.1.2) as [colour'|] eqn:Hd; [|by left].
        apply elem_of_extend in Hcell as [?|[-> Hcell]]; [by left|].
        right. exists 0, d. rewrite Nat.add_0_r. set_solver.
      * right. exists (S i), d'. split_and!; [done..|].
        destruct Hcell as [-> | ->]; [left|right]; f_equal; lia.
    + intros [Hcell|(i & d' & Hi & Hlevel & Hcell)].
      * left. destruct (level_colour d.1.1.2); [|done].
        apply elem_of_extend. by left.
      * destruct i as [|i]; simplify_eq/=.
        -- left. rewrite Hlevel. apply elem_of_extend. right.
           rewrite Nat.add_0_r in Hcell. set_solver.
        -- right. exists i, d'. split_and!; [done..|].
           destruct Hcell as [-> | ->]; [left|right]; f_equal; lia.
Qed.

(** X19.  [view_logs] lists the records newest first, and colours a row by
    its level alone: the cells of its level and logger columns are in the
    list of green for INFO, blue for DEBUG, orange for WARNING, red for
    ERROR, and a row of any other level is in no list. *)
Theorem view_logs_rows_and_colours (records : list LogRecord) :
  length (data (view_logs records)) = length records
  ∧ (∀ i, i < length records →
       data (view_logs records) !! i = log_row <$> records !! (length records - S i))
  ∧ (∀ colour cell,
       cell ∈ default [] (attrs (view_logs records) !! colour) ↔
       ∃ i r, i < length records
         ∧ records !! (length records - S i) = Some r
         ∧ level_colour (levelname r) = Some colour
         ∧ (cell = (i, 1) ∨ cell = (i, 2))).
Proof.
  split_and!.
  - simpl. by rewrite length_fmap, length_reverse.
  - intros i Hi. simpl. by rewrite list_lookup_fmap, reverse_lookup.
  - intros colour cell. simpl.
    rewrite (imap_ext _ (λ i, pair (0 + i))) by done.
    rewrite colour_log_rows_cells, lookup_empty. simpl. split.
    + intros [[]%elem_of_nil|(i & d & Hi & Hlevel & Hcell)].
      rewrite list_lookup_fmap in Hi.
      destruct (reverse records !! i) as [r|] eqn:Hr; simplify_eq/=.
      pose proof (lookup_lt_Some _ _ _ Hr) as Hlt. rewrite length_reverse in Hlt.
      rewrite reverse_lookup in Hr by done. by exists i, r.
    + intros (i & r & Hlt & Hr & Hlevel & Hcell). right. exists i, (log_row r).
      rewrite list_lookup_fmap, reverse_lookup, Hr by done. done.
Qed.

(** *** The peer views *)


Lemma mapM_lookup {A B} (f : A → outcome B) (l : list A) (k : list B) :
  mapM f l = Return k →
  length k = length l
  ∧ ∀ i x, l !! i = Some x → ∃ y, f x = Return y ∧ k !! i = Some y.
Proof.
  intros Hk%mapM_Return. split; [symmetry; by eapply Forall2_length|].
  intros i x Hx. destruct (Forall2_lookup_l _ _ _ _ _ Hk Hx) as (y & ? & ?). by exists y.
Qed.



Lemma prefix_append (s1 s2 : string) : String.prefix s1 (s1 +:+ s2) = true.
Proof.
  induction s1 as [|a s1 IH]; [by destruct s2|].
  change (String a s1 +:+ s2) with (String a (s1 +:+ s2)). cbn [String.prefix].
  destruct (ascii_dec a a) as [_|Hne]; [exact IH|by destruct Hne].
Qed.

Lemma drop_chars_append (s1 s2 : string) : drop_chars (String.length s1) (s1 +:+ s2) = s2.
Proof. induction s1 as [|a s1 IH]; [by destruct s2|]. exact IH. Qed.

Lemma view_potential_peers_eq api peers :
  network_get_potential_peers api = Return peers →
  view_potential_peers api =
    mapM potential_peer_row (take 300 peers) ≫= λ data,
      Return (TablePage
                (Table "network.html" (Some "Potential peers")
                   ["Address"; "Last connection time"; "Last connection status"; "Last seen";
                    "Successful connections"; "Failed connections"]
                   data (datetime_cells [1; 3] (length (take 300 peers))) desc_order)).
Proof. intros Hpeers. unfold view_potential_peers. by rewrite Hpeers. Qed.

(** X21.  [view_potential_peers] shows the first 300 potential peers and
    reads no other: the table has a row for each of them, in their order,
    and peers after the 300th, well formed or not, change nothing.  The
    status column drops the prefix "last_connection_" of the disposition,
    once, and leaves any other text as it is. *)
Theorem view_potential_peers_rows api peers :
  network_get_potential_peers api = Return peers →
  (∀ t, view_potential_peers api = Return (TablePage t) →
     length (data t) = length peers `min` 300
     ∧ ∀ i p, i < 300 → peers !! i = Some p →
         ∃ row, potential_peer_row p = Return row ∧ data t !! i = Some row)
  ∧ (∀ api' peers', network_get_potential_peers api' = Return peers' →
       take 300 peers' = take 300 peers →
       view_potential_peers api' = view_potential_peers api)
  ∧ (∀ s, fmt (JStr (lc +:+ s)) = Return (JStr s))
  ∧ (∀ s, String.prefix lc s = false → fmt (JStr s) = Return (JStr s)).
Proof.
  intros Hpeers. split_and!.
  - intros t. rewrite (view_potential_peers_eq _ _ Hpeers).
    destruct (mapM potential_peer_row (take 300 peers)) as [rows|e] eqn:Hrows; [|done].
    simpl. intros [= <-]. simpl.
    destruct (mapM_lookup _ _ _ Hrows) as [Hlen Hrow]. split.
    + rewrite Hlen, length_take. lia.
    + intros i p Hi Hp. apply (Hrow i p). rewrite lookup_take. by rewrite decide_True.
  - intros api' peers' Hpeers' Htake.
    by rewrite (view_potential_peers_eq _ _ Hpeers), (view_potential_peers_eq _ _ Hpeers'), Htake.
  - intros s. unfold fmt. by rewrite prefix_append, drop_chars_append.
  - intros s Hs. unfold fmt. by rewrite Hs.
Qed.

(** *** [view_backbone_nodes] *)






(** *** The colours of [view_info] *)

Lemma colour_info_item_style F is_witness attrs i prop value :
  colour_info_item F is_witness attrs i prop value =
    item_style F is_witness prop value ≫= λ style : option string,
      Return match style with
             | Some style => extend style [(i, 1)] attrs
             | None => attrs
             end.
Proof.
  unfold colour_info_item, item_style, green_if_true.
  repeat case_decide; simpl.
  - by destruct is_witness, (truthy value).
  - by destruct (ge_int value 5) as [[]|].
  - by destruct value as [|[]| | | |]; simpl; try destruct (_ <? _)%Z.
  - destruct (float_of F value) as [x|]; [|done]. simpl. by repeat case_match.
  - destruct (truthy value); [|done]. by destruct (lt_int value 60) as [[]|].
  - by destruct value.
  - done.
Qed.

Lemma colour_info_items_cells F is_witness items k attrs attrs' style cell :
  colour_info_items F is_witness attrs k items = Return attrs' →
  cell ∈ default [] (attrs' !! style) ↔
  cell ∈ default [] (attrs !! style)
  ∨ ∃ i prop value, items !! i = Some (prop, value)
      ∧ item_style F is_witness prop value = Return (Some style)
      ∧ cell = (k + i, 1).
Proof.
  revert k attrs. induction items as [|[prop value] items IH]; intros k attrs.
  - intros [= <-]. split; [by left|]. intros [?|(i & ? & ? & Hi & _)]; [done|].
    by rewrite lookup_nil in Hi.
  - simpl. rewrite colour_info_item_style.
    destruct (item_style F is_witness prop value) as [added|e] eqn:Hstyle; [|done].
    simpl. intros Hrest%IH. rewrite Hrest. clear Hrest. split.
    + intros [Hcell|(i & prop' & value' & Hi & Hs & ->)].
      * destruct added as [style'|]; [|by left].
        apply elem_of_extend in Hcell as [?|[-> ->%list_elem_of_singleton]]; [by left|].
        right. exists 0, prop, value. by rewrite Nat.add_0_r.
      * right. exists (S i), prop', value'. split_and!; [done..|]. f_equal. lia.
    + intros [Hcell|(i & prop' & value' & Hi & Hs & ->)].
      * left. destruct added; [|done]. apply elem_of_extend. by left.
      * destruct i as [|i]; simplify_eq/=.
        -- rewrite Hstyle in Hs. injection Hs as ->.
           left. apply elem_of_extend. right. rewrite Nat.add_0_r. set_solver.
        -- right. exists i, prop', value'. split_and!; [done..|]. f_equal. lia.
Qed.

Lemma item_style_participation F is_witness value :
  item_style F is_witness "blockchain_average_delegate_participation" value =
    float_of F value ≫= λ x,
      Return (if float_lt F x 90 then Some "orange"
              else if float_lt F x 80 then Some "red" else None).
Proof. done. Qed.

(** X23.  [view_info] never colours the average delegate participation red:
    the test for a value below 80 comes after, and only when it fails, the
    test for a value below 90, so with an order on the floats in which what
    is below 80 is below 90 the row is orange exactly when the value is
    below 90, also below 80, and red never. *)
Theorem participation_never_red F is_witness info_items attrs' :
  (∀ x, float_lt F x 80 = true → float_lt F x 90 = true) →
  info_attrs F is_witness info_items = Return attrs' →
  ∀ i value,
    info_items !! i = Some ("blockchain_average_delegate_participation", value) →
    ((i, 1) ∉ default [] (attrs' !! "red"))
    ∧ ((i, 1) ∈ default [] (attrs' !! "orange") ↔
       (∃ x, float_of F value = Return x ∧ float_lt F x 90 = true)).
Proof.
  intros Hmono Hattrs i value Hi. unfold info_attrs in Hattrs.
  pose proof (λ style cell, colour_info_items_cells _ _ _ _ _ _ style cell Hattrs) as Hcells.
  split.
  - intros [Hbold|(i' & prop & value' & Hi' & Hstyle & [= <-])]%Hcells.
    + rewrite lookup_singleton_ne in Hbold by done. by apply elem_of_nil in Hbold.
    + rewrite Hi in Hi'. injection Hi' as <- <-.
      rewrite item_style_participation in Hstyle.
      destruct (float_of F value) as [x|]; [|done]. simpl in Hstyle.
      destruct (float_lt F x 90) eqn:H90; [done|].
      destruct (float_lt F x 80) eqn:H80; [|done].
      apply Hmono in H80. congruence.
  - rewrite Hcells. split.
    + intros [Hbold|(i' & prop & value' & Hi' & Hstyle & [= <-])].
      * rewrite lookup_singleton_ne in Hbold by done. by apply elem_of_nil in Hbold.
      * rewrite Hi in Hi'. injection Hi' as <- <-.
        rewrite item_style_participation in Hstyle.
        destruct (float_of F value) as [x|]; [|done]. simpl in Hstyle.
        exists x. split; [done|].
        destruct (float_lt F x 90); [done|]. by destruct (float_lt F x 80).
    + intros (x & Hx & H90). right.
      exists i, "blockchain_average_delegate_participation", value.
      split_and!; [done| |done].
      rewrite item_style_participation, Hx. simpl. by rewrite H90.
Qed.

(** *** [catch_error] *)

(** X24.  [catch_error] never touches the registry or the main node and
    never sets the online flag: the flag is cleared exactly when the view
    raised [requests.exceptions.ConnectionError], or [core.RPCError] with
    "Connection aborted" in its message, and is otherwise left as it was; a
    response the view returns is passed on unchanged, and
    [core.UnauthorizedError] gives the page for it. *)
Theorem catch_error_state (st : state) (o : outcome response) :
  nodes (catch_error (st, o)).1 = nodes st
  ∧ main_node (catch_error (st, o)).1 = main_node st
  ∧ is_online (catch_error (st, o)).1 =
      is_online st
      && negb match o with
              | Return _ => false
              | Raise e =>
                  bool_decide (exn_cls e = RequestsConnectionError)
                  || bool_decide (exn_cls e = RPCError)
                     && contains "Connection aborted" (exn_msg e)
              end
  ∧ (∀ resp, o = Return resp → (catch_error (st, o)).2 = resp)
  ∧ (∀ e, o = Raise e → exn_cls e = UnauthorizedError →
       catch_error (st, o) = (st, UnauthorizedPage)).
Proof.
  unfold catch_error. destruct o as [resp|[cls message]]; simpl.
  - rewrite andb_true_r. split_and!; try done. by intros ? [= ->].
  - unfold caught_by.
    destruct cls; simpl; try destruct (contains _ _); simpl;
      rewrite ?andb_true_r, ?andb_false_r; split_and!; try done;
      by intros e [= <-].
Qed.
End views_facts.

(** ** Instances *)

Section more_scenarios.
Import Fixtures Samples Layout Views.

Lemma split_columns_attrs_follow_witness :
  ∃ cells' i' j',
    (split_columns table_items table_attrs).2 !! "green" = Some cells'
    ∧ length cells' = 2
    ∧ cells' !! 1 = Some (i', j')
    ∧ is_Some (item_cell table_items 2 1)
    ∧ row_cell (split_columns table_items table_attrs).1 i' j' = Some "3".
Proof.
  apply (split_columns_attrs_follow table_items table_attrs "green" [(0, 1); (2, 1)] 1 2 1).
  - reflexivity.
  - reflexivity.
  - simpl. lia.
  - lia.
Defined.

Lemma only_three_members_read_witness :
  json_rpc_call gw registry (JDict info_call)
  = json_rpc_call gw registry (JDict renamed_call).
Proof. apply (only_three_members_read gw registry info_call renamed_call); reflexivity. Defined.

Lemma other_exceptions_escape_witness :
  json_rpc_call gw_unauthorized registry (JDict info_call)
  = ([RpcCall "localhost" (JNum 1234) "alice" "s3cret" (JStr "info") []],
     Raise (Exn UnauthorizedError "")).
Proof.
  apply (other_exceptions_escape gw_unauthorized registry info_call
           (JStr "info") (JList []) nodeA (Exn UnauthorizedError "")).
  - reflexivity.
  - reflexivity.
  - reflexivity.
  - reflexivity.
  - reflexivity.
Defined.

Lemma value_error_reported_as_not_found_witness :
  json_rpc_call gw_garbled registry (JDict info_call)
  = ([RpcCall "localhost" (JNum 1234) "alice" "s3cret" (JStr "info") []],
     Return (error_envelope (JNum 7) "Could not find active node on port 1234")).
Proof.
  apply (value_error_reported_as_not_found gw_garbled registry info_call (JNum 7)
           (JStr "info") (JList []) nodeA
           (Exn ValueError "Expecting value: line 1 column 1 (char 0)"));
    reflexivity.
Defined.

Lemma call_made_before_id_is_missed_witness :
  dict_get "id" anonymous_call = None
  ∧ json_rpc_call gw registry (JDict anonymous_call)
    = ([RpcCall "localhost" (JNum 1234) "alice" "s3cret" (JStr "info") []],
       Raise (Exn KeyError "id")).
Proof.
  split; [reflexivity|].
  destruct (call_made_before_id_is_missed gw registry anonymous_call eq_refl)
    as (_ & _ & Hcall).
  exact (Hcall (JStr "info") (JList []) nodeA
           (JDict [("id", JNum 0); ("result", JStr "head_block 42")])
           eq_refl eq_refl eq_refl).
Defined.

Lemma answer_must_be_an_object_witness :
  ∃ message,
    json_rpc_call gw_batch registry (JDict info_call)
    = ([RpcCall "localhost" (JNum 1234) "alice" "s3cret" (JStr "info") []],
       Raise (Exn TypeError message)).
Proof.
  apply (answer_must_be_an_object gw_batch registry info_call (JNum 7)
           (JStr "info") (JList []) [] nodeA (JList [JNum 1]));
    try reflexivity.
  intros body. discriminate.
Defined.


Lemma socket_state_by_status_witness :
  match (check_seed_status silent "198.51.100.2:1776").1 with
  | Some s =>
      sock_timeout s = Some 3%Z ∧ sock_connected s = true ∧ sock_closed s = false
  | None => False
  end.
Proof.
  destruct (check_seed_status silent "198.51.100.2:1776") as [[s|] [status|e]] eqn:Hprobe;
    try (vm_compute in Hprobe; discriminate).
  destruct (socket_state_by_status silent "198.51.100.2:1776" s status Hprobe)
    as [Htimeout Hstate].
  simpl. split; [exact Htimeout|].
  vm_compute in Hprobe. injection Hprobe as <- <-. by split.
Defined.

Lemma shown_status_was_found_witness :
  ∃ j t k style status,
    two_seeds !! j = Some "198.51.100.7:1776"
    ∧ stored late_greeting j = Some t
    ∧ k < 3 ∧ (t ≤ lookup_at late_greeting 0 k)%N
    ∧ (check_seed_status (probe_env late_greeting j) "198.51.100.7:1776").2 = Return status
    ∧ div "btn-success" "online" = div style status.
Proof.
  apply (shown_status_was_found late_greeting two_seeds 0 "198.51.100.7:1776"
           (div "btn-success" "online")).
  - reflexivity.
  - vm_compute. discriminate.
Defined.

Lemma last_probe_wins_witness :
  seed_rows twins twin_seeds !! 1 = Some ("198.51.100.1:1776", div "btn-warning" "stuck").
Proof.
  apply (last_probe_wins twins twin_seeds 0 "198.51.100.1:1776" 3019 "stuck");
    try reflexivity.
  - intros [|[|j']] t' status' Hne Hseed Hstored Hstatus; [done| |done].
    injection Hstored as <-. reflexivity.
  - intros k Hk. unfold twins, after; simpl. lia.
Defined.


Lemma view_potential_peers_rows_witness :
  fmt (JStr "last_connection_succeeded") = Return (JStr "succeeded")
  ∧ fmt (JStr "never_attempted_to_connect") = Return (JStr "never_attempted_to_connect").
Proof.
  destruct (view_potential_peers_rows api
              [potential "1.2.3.4:1776" "last_connection_succeeded";
               potential "9.9.9.9:1776" "never_attempted_to_connect"]
              eq_refl) as (_ & _ & Hdropped & Hkept).
  split; [exact (Hdropped "succeeded")|exact (Hkept "never_attempted_to_connect" eq_refl)].
Defined.


Lemma participation_never_red_witness :
  match info_attrs int_floats true info_items with
  | Return attrs' =>
      ((0, 1) ∉ default [] (attrs' !! "red")) ∧ (0, 1) ∈ default [] (attrs' !! "orange")
  | Raise _ => False
  end.
Proof.
  destruct (info_attrs int_floats true info_items) as [attrs'|e] eqn:Hattrs;
    [|vm_compute in Hattrs; discriminate].
  destruct (participation_never_red int_floats true info_items attrs') with
    (i := 0) (value := JNum 75) as [Hred Horange].
  - intros x Hx. simpl in *. apply Z.ltb_lt. apply Z.ltb_lt in Hx. lia.
  - exact Hattrs.
  - reflexivity.
  - split; [exact Hred|]. apply Horange. by exists 75%Z.
Defined.

End more_scenarios.
